(** * Argus ingest agent: a shallow embedding of the per-camera engine

    The development follows the Python sources of the engine:
    - [engine/main.py]                          ([DynamicEngine]),
    - [engine/src/core/sensors/ip_camera.py]    ([IP_Camera]),
    - [engine/src/core/utils/health.py]         ([FrameHealthValidator]),
    - [engine/src/database/metadata_handler.py] ([MetadataHandler]),
    - [engine/src/database/schemas/metadata_schema.py] ([Metadata]).

    Python objects that are shared and mutated (numpy frames, payload
    dictionaries) live in explicit stores addressed by references; threads
    and the outside world (the video capture, the clock, the document
    store) are inputs of step functions.  Floating-point numbers are
    modelled by exact rationals: every comparison made by the code is a
    comparison of the computed values, which the model keeps. *)

From Stdlib Require Import ZArith QArith Qminmax Qfield Lia List.
From stdpp Require Import base option list gmap strings pretty.

Set Warnings "-register-all".
Local Open Scope Z_scope.

(** ** Python values *)

Module Py.

(** A Python float: a finite value, an infinity or a NaN. *)
Inductive pyfloat :=
| FNum (q : Q)
| FInf (negative : bool)
| FNan.

(** Keys of the dictionaries the engine handles: strings and integers. *)
Inductive pykey :=
| KStr (s : string)
| KInt (z : Z).

Inductive pyval :=
| VNone
| VBool (b : bool)
| VInt (z : Z)
| VFloat (f : pyfloat)
| VStr (s : string)
| VList (l : list pyval)
| VNdarray (l : list pyval)
| VDict (d : list (pykey * pyval)).

Definition pykey_eqb (a b : pykey) : bool :=
  match a, b with
  | KStr s, KStr t => String.eqb s t
  | KInt x, KInt y => Z.eqb x y
  | _, _ => false
  end.

(** [d.get(k)]: the value of the first entry whose key is [k]. *)
Fixpoint dict_lookup (k : pykey) (d : list (pykey * pyval)) : option pyval :=
  match d with
  | [] => None
  | (k', v) :: rest => if pykey_eqb k k' then Some v else dict_lookup k rest
  end.

(** [d.get(k, default)] *)
Definition dict_get (k : string) (default : pyval) (d : list (pykey * pyval)) : pyval :=
  match dict_lookup (KStr k) d with
  | Some v => v
  | None => default
  end.

Definition Qeqb0 (q : Q) : bool := Z.eqb (Qnum q) 0.

(** Truth value of an object, as tested by [if x:].  [None] stands for the
    [ValueError] numpy raises for an array of more than one element. *)
Definition py_truthy (v : pyval) : option bool :=
  match v with
  | VNone => Some false
  | VBool b => Some b
  | VInt z => Some (negb (Z.eqb z 0))
  | VFloat (FNum q) => Some (negb (Qeqb0 q))
  | VFloat _ => Some true
  | VStr s => Some (negb (String.eqb s ""))
  | VList l => Some (match l with [] => false | _ => true end)
  | VDict d => Some (match d with [] => false | _ => true end)
  | VNdarray [] => Some false
  | VNdarray [VBool b] => Some b
  | VNdarray [VInt z] => Some (negb (Z.eqb z 0))
  | VNdarray [VFloat (FNum q)] => Some (negb (Qeqb0 q))
  | VNdarray [VFloat _] => Some true
  | VNdarray _ => None
  end.

(** Truncation toward zero, as [int] does on a float. *)
Definition Qtrunc (q : Q) : Z := Z.quot (Qnum q) (Zpos (Qden q)).

(** The double nearest to an integer, as [float] makes it of an [int]:
    an integer of at most 53 bits is kept; a longer one is rounded to 53
    significant bits, a tie going to the even significand. *)
Definition round_double (z : Z) : Z :=
  let a := Z.abs z in
  let e := Z.log2 a - 52 in
  if e <=? 0 then z
  else
    let q := a / 2 ^ e in
    let r := a mod 2 ^ e in
    let half := 2 ^ (e - 1) in
    let q' := if (half <? r) || ((r =? half) && Z.odd q) then q + 1 else q in
    Z.sgn z * (q' * 2 ^ e).

(** [float(z)] for an [int]: [None] is the [OverflowError] of an integer
    whose nearest double would be [2 ** 1024] or beyond. *)
Definition float_of_int (z : Z) : option pyfloat :=
  let d := round_double z in
  if 2 ^ 1024 <=? Z.abs d then None else Some (FNum (inject_Z d)).

(** What the embedding takes from outside the repository: the parsing and
    printing built-ins of Python on the values where they are not a
    one-line function. *)
Record Externals := {
  int_of_str : string -> option Z;
  float_of_str : string -> option pyfloat;
  str_of_other : pyval -> string;
}.

Section Builtins.
Context (ext : Externals).

(** [int(x)]; [None] is a raised [TypeError], [ValueError] or
    [OverflowError]. *)
Definition py_int (v : pyval) : option Z :=
  match v with
  | VBool b => Some (if b then 1 else 0)
  | VInt z => Some z
  | VFloat (FNum q) => Some (Qtrunc q)
  | VFloat _ => None
  | VStr s => int_of_str ext s
  | VNdarray [VBool b] => Some (if b then 1 else 0)
  | VNdarray [VInt z] => Some z
  | VNdarray [VFloat (FNum q)] => Some (Qtrunc q)
  | _ => None
  end.

(** [float(x)]; [None] is a raised [TypeError], [ValueError] or
    [OverflowError]. *)
Definition py_float (v : pyval) : option pyfloat :=
  match v with
  | VBool b => Some (FNum (if b then 1 else 0)%Q)
  | VInt z => float_of_int z
  | VFloat f => Some f
  | VStr s => float_of_str ext s
  | VNdarray [VBool b] => Some (FNum (if b then 1 else 0)%Q)
  | VNdarray [VInt z] => float_of_int z
  | VNdarray [VFloat f] => Some f
  | _ => None
  end.

(** [str(x)] *)
Definition py_str (v : pyval) : string :=
  match v with
  | VNone => "None"
  | VBool true => "True"
  | VBool false => "False"
  | VInt z => pretty z
  | VStr s => s
  | _ => str_of_other ext v
  end.

Definition py_str_key (k : pykey) : string :=
  match k with
  | KStr s => s
  | KInt z => pretty z
  end.

Definition key_val (k : pykey) : pyval :=
  match k with
  | KStr s => VStr s
  | KInt z => VInt z
  end.

Fixpoint chars (s : string) : list pyval :=
  match s with
  | EmptyString => []
  | String c rest => VStr (String c EmptyString) :: chars rest
  end.

(** The elements a [for x in v] visits; [None] when [v] is not iterable. *)
Definition py_iter (v : pyval) : option (list pyval) :=
  match v with
  | VList l => Some l
  | VNdarray l => Some l
  | VStr s => Some (chars s)
  | VDict d => Some (map (fun kv => key_val (fst kv)) d)
  | _ => None
  end.

(** [isinstance(v, np.ndarray)] and [v.tolist()] *)
Definition is_ndarray (v : pyval) : bool :=
  match v with
  | VNdarray _ => true
  | _ => false
  end.

Definition tolist (v : pyval) : pyval :=
  match v with
  | VNdarray l => VList l
  | _ => v
  end.

End Builtins.

End Py.

(** ** Frames: numpy arrays in a store *)

Module Frames.

(** A decoded image: a luminance plane or a three-channel BGR matrix, by
    rows.  Intensities are bytes. *)
Inductive ndarray :=
| Gray (rows : list (list Z))
| BGR (rows : list (list (Z * Z * Z))).

Abbreviation ref := nat.

(** The store of arrays; a reference is an index. *)
Abbreviation heap := (list ndarray).

Definition alloc (h : heap) (a : ndarray) : ref * heap := (length h, h ++ [a]).

(** [a.copy()]: a new array with the contents of [a]. *)
Definition np_copy (h : heap) (r : ref) : option (ref * heap) :=
  match h !! r with
  | Some a => Some (alloc h a)
  | None => None
  end.

(** An in-place write through a reference, [a[...] = v]. *)
Definition np_write (h : heap) (r : ref) (a : ndarray) : heap := <[r := a]> h.

End Frames.

(** ** The pipeline runtime, [DynamicEngine.run] *)

Module Engine.
Import Py Frames.

(** The payload dictionary built for a frame. *)
Record Payload := {
  frame : ref;
  original_frame : ref;
  timestamp : Q;
  frame_number : Z;
  meta : gmap string pyval;
}.

(** Everything a stage can reach: the arrays, the payload objects, and the
    private state [E] of the stage instances and their sinks. *)
Record World (E : Type) := {
  frames : heap;
  payloads : list Payload;
  ext : E;
}.
Arguments frames {E} _.
Arguments payloads {E} _.
Arguments ext {E} _.

(** What [module.process(payload)] does: it returns a payload object,
    returns [None], or raises. *)
Inductive StageResult :=
| Returned (p : ref)
| ReturnedNone
| Raised (msg : string).

Record Stage (E : Type) := {
  process : World E -> ref -> StageResult * World E;
}.
Arguments process {E} _ _ _.

(** What the main loop does that others can observe.  [EvCleanup] is the
    call [self.cleanup()] of the [finally] clause; what that call does is
    [EngineExt.cleanup]. *)
Inductive Event :=
| EvCapture (n : Z) (p : ref)
| EvInvoke (i : nat) (p : ref)
| EvWarnEmpty
| EvSleep (seconds : Q)
| EvLogError (msg : string)
| EvCleanup.

(** How the [for module in self.pipeline_modules] loop ends. *)
Inductive PipeOutcome :=
| Completed (p : ref)
| Aborted
| Failed (msg : string).

(** The inner loop from module number [i] on, with the current payload. *)
Fixpoint run_modules {E} (i : nat) (mods : list (Stage E)) (w : World E) (p : ref)
  : list Event * PipeOutcome * World E :=
  match mods with
  | [] => ([], Completed p, w)
  | m :: rest =>
      match process m w p with
      | (Returned p', w') =>
          let '(evs, o, w'') := run_modules (S i) rest w' p' in
          (EvInvoke i p :: evs, o, w'')
      | (ReturnedNone, w') => ([EvInvoke i p], Aborted, w')
      | (Raised msg, w') => ([EvInvoke i p], Failed msg, w')
      end
  end.

(** One turn of the [while] loop as the main thread sees the rest of the
    process: the shutdown event, [camera.is_open], the result of
    [camera.capture.read()] and the clock. *)
Record Tick := {
  shutdown_set : bool;
  cam_open : bool;
  read_ret : bool;
  read_frame : option ndarray;
  now : Q;
}.

Record LoopState (E : Type) := {
  world : World E;
  frame_count : Z;
}.
Arguments world {E} _.
Arguments frame_count {E} _.

(** Where the loop stands after the turns offered: still running, or left
    for good, with the world it leaves behind. *)
Inductive Status (E : Type) :=
| Running (st : LoopState E)
| Exited (w : World E).
Arguments Running {E} _.
Arguments Exited {E} _.

(** Step 2 of the loop body: the payload for a captured frame.  The frame
    read from the capture is a new array, [frame.copy()] another one. *)
Definition build_payload {E} (st : LoopState E) (a : ndarray) (t : Q) : ref * World E :=
  let w := world st in
  let '(rf, h1) := alloc (frames w) a in
  let '(rc, h2) := alloc h1 a in
  let pl := {| frame := rf; original_frame := rc; timestamp := t;
               frame_number := frame_count st; meta := ∅ |} in
  (length (payloads w),
   {| frames := h2; payloads := payloads w ++ [pl]; ext := ext w |}).

Definition no_frame_msg : string := "'NoneType' object has no attribute 'copy'".

(** [run]: the loop over the turns the environment offers.  An exception
    leaves the [while] loop for the [except] clause, which logs it; the
    [finally] clause then calls [cleanup]. *)
Fixpoint run {E} (mods : list (Stage E)) (ticks : list Tick) (st : LoopState E)
  : list Event * Status E :=
  match ticks with
  | [] => ([], Running st)
  | t :: ts =>
      if shutdown_set t || negb (cam_open t) then ([EvCleanup], Exited (world st))
      else if negb (read_ret t) then
        let '(evs, s) := run mods ts st in
        (EvWarnEmpty :: EvSleep (1 # 10) :: evs, s)
      else
        match read_frame t with
        | None => ([EvLogError no_frame_msg; EvCleanup], Exited (world st))
        | Some a =>
            let '(p, w0) := build_payload st a (now t) in
            match run_modules 0 mods w0 p with
            | (evs, Failed msg, w1) =>
                (EvCapture (frame_count st) p :: evs ++ [EvLogError msg; EvCleanup],
                 Exited w1)
            | (evs, _, w1) =>
                let '(evs', s) :=
                  run mods ts {| world := w1; frame_count := frame_count st + 1 |} in
                (EvCapture (frame_count st) p :: evs ++ evs', s)
            end
        end
  end.

Definition is_capture (e : Event) : bool :=
  match e with
  | EvCapture _ _ => true
  | _ => false
  end.

Definition invoked_stage (e : Event) : option nat :=
  match e with
  | EvInvoke i _ => Some i
  | _ => None
  end.

Definition invoked_payload (e : Event) : option ref :=
  match e with
  | EvInvoke _ p => Some p
  | _ => None
  end.

(** A turn on which the loop captures a frame. *)
Definition good_tick (t : Tick) : bool :=
  negb (shutdown_set t) && cam_open t && read_ret t &&
  match read_frame t with Some _ => true | None => false end.

(** The turn on which the capture delivers the frame [a] at time [tm]
    while the engine is running. *)
Definition capture_tick (a : ndarray) (tm : Q) : Tick :=
  {| shutdown_set := false; cam_open := true; read_ret := true;
     read_frame := Some a; now := tm |}.

End Engine.

(** ** Rational arithmetic as the code uses it *)

Module Num.

Definition Qltb (x y : Q) : bool :=
  match (x ?= y)%Q with
  | Lt => true
  | _ => false
  end.

Definition Qgeb (x y : Q) : bool := negb (Qltb x y).

(** Python's [max(a, b)]: [b] when [b > a], else [a]. *)
Definition py_max (a b : Q) : Q := if Qltb a b then b else a.

Definition Zsum (l : list Z) : Z := fold_right Z.add 0 l.

Definition Qsum (l : list Q) : Q := fold_right Qplus 0%Q l.

End Num.

(** ** [FrameHealthValidator] *)

Module Health.
Import Frames Num.

Record Thresholds := {
  entropy_thresh : Q;
  white_thresh : Q;
  blur_thresh : Q;
  black_thresh : Q;
}.

(** [__init__(entropy_thresh=4.0, white_thresh=0.6, blur_thresh=100.0,
    black_thresh=10.0)]; an argument left out takes its default. *)
Definition init (entropy white blur black : option Q) : Thresholds :=
  {| entropy_thresh := default 4%Q entropy;
     white_thresh := default (6 # 10)%Q white;
     blur_thresh := default 100%Q blur;
     black_thresh := default 10%Q black |}.

(** The functions of OpenCV, numpy and Python the camera and the
    validator call and that are not arithmetic on integers and rationals:
    the luminance [cv2.cvtColor] gives a BGR pixel, the logarithm
    [np.log2], the rotation of a frame by [cv2.rotate], and the printing
    of a number with a fixed count of decimals. *)
Record Cv := {
  bgr2gray : Z * Z * Z -> Z;
  log2 : Q -> Q;
  rotate : Z -> ndarray -> ndarray;
  fmt : nat -> Q -> string;
}.

Definition size (a : ndarray) : nat :=
  match a with
  | Gray rows => length (concat rows)
  | BGR rows => (3 * length (concat rows))%nat
  end.

Definition count_if (f : Z -> bool) (l : list Z) : Z :=
  Z.of_nat (length (filter (fun v => f v = true) l)).

(** [cv2.calcHist([gray], [0], None, [256], [0, 256]).ravel()] *)
Definition calcHist (gray : list (list Z)) : list Z :=
  map (fun i => count_if (Z.eqb (Z.of_nat i)) (concat gray)) (seq 0 256).

(** The end of [_calculate_entropy], for a histogram with a positive sum:
    [p /= s], [p = p[p > 0]] and [-(p * np.log2(p)).sum()]. *)
Definition shannon (cv : Cv) (hist : list Z) : Q :=
  let s := inject_Z (Zsum hist) in
  let p := map (fun h => (inject_Z h / s)%Q) hist in
  let p := filter (fun x => Qltb 0 x = true) p in
  (- Qsum (map (fun x => x * log2 cv x) p))%Q.

(** The index [borderInterpolate] gives a position [p] next to an axis of
    length [len] under [BORDER_REFLECT_101], the default border. *)
Definition reflect101 (len p : Z) : Z :=
  if len =? 1 then 0
  else if p <? 0 then - p
  else if len <=? p then 2 * len - 2 - p
  else p.

(** The row, and the pixel of a row, at an interpolated position. *)
Definition row_at (gray : list (list Z)) (y : Z) : list Z :=
  default [] (gray !! Z.to_nat y).

Definition pixel_at (row : list Z) (x : Z) : Z :=
  default 0 (row !! Z.to_nat x).

(** [cv2.Laplacian(gray, cv2.CV_64F)]: with the aperture of size one each
    pixel becomes the sum of its four neighbours minus four times itself,
    the neighbours beyond the border taken by reflection. *)
Definition Laplacian (gray : list (list Z)) : list (list Z) :=
  let rows := Z.of_nat (length gray) in
  imap (fun y row =>
          let above := row_at gray (reflect101 rows (Z.of_nat y - 1)) in
          let below := row_at gray (reflect101 rows (Z.of_nat y + 1)) in
          let cols := Z.of_nat (length row) in
          imap (fun x v =>
                  let x := Z.of_nat x in
                  pixel_at above x + pixel_at below x +
                  pixel_at row (reflect101 cols (x - 1)) +
                  pixel_at row (reflect101 cols (x + 1)) - 4 * v)
               row)
       gray.

(** [a.var()]: the mean of the squares of the distances to the mean. *)
Definition np_var (l : list Z) : Q :=
  let n := inject_Z (Z.of_nat (length l)) in
  let m := (inject_Z (Zsum l) / n)%Q in
  (Qsum (map (fun v => (inject_Z v - m) * (inject_Z v - m)) l) / n)%Q.

(** [cv2.Laplacian(gray_frame, cv2.CV_64F).var()] *)
Definition laplacian_var (gray : list (list Z)) : Q :=
  np_var (concat (Laplacian gray)).

Section Validator.
Context (th : Thresholds) (cv : Cv).

Definition _calculate_entropy (gray : list (list Z)) : Q :=
  let hist := calcHist gray in
  let s := Zsum hist in
  if s <=? 0 then 0%Q else shannon cv hist.

Definition white_ratio (gray : list (list Z)) : Q :=
  (inject_Z (count_if (fun v => 220 <? v) (concat gray))
   / inject_Z (Z.of_nat (length (concat gray))))%Q.

Definition _check_glitch (gray : list (list Z)) : bool * list string :=
  let entropy_val := _calculate_entropy gray in
  let '(glitched1, reasons1) :=
    if Qltb entropy_val (entropy_thresh th)
    then (true, ["Low Entropy/Glitch (Ent: " +:+ fmt cv 2 entropy_val +:+ ")"])
    else (false, []) in
  let ratio := white_ratio gray in
  if Qltb (white_thresh th) ratio
  then (true, reasons1 ++ ["White Screen (Ratio: " +:+ fmt cv 2 ratio +:+ ")"])
  else (glitched1, reasons1).

Definition _check_blur (gray : list (list Z)) : bool * Q :=
  let v := laplacian_var gray in
  (Qltb v (blur_thresh th), v).

Definition mean (gray : list (list Z)) : Q :=
  (inject_Z (Zsum (concat gray)) / inject_Z (Z.of_nat (length (concat gray))))%Q.

Definition _check_black_screen (gray : list (list Z)) : bool * Q :=
  let m := mean gray in
  (Qltb m (black_thresh th), m).

Definition to_gray (a : ndarray) : list (list Z) :=
  match a with
  | BGR rows => map (map (bgr2gray cv)) rows
  | Gray rows => rows
  end.

Definition validate (frame : option ndarray) : bool * list string :=
  match frame with
  | None => (false, ["Empty Frame"])
  | Some a =>
      if Nat.eqb (size a) 0 then (false, ["Empty Frame"])
      else
        let gray := to_gray a in
        let '(is_glitched, glitch_reasons) := _check_glitch gray in
        let reasons := if is_glitched then glitch_reasons else [] in
        let '(is_black, black_val) := _check_black_screen gray in
        let reasons :=
          if is_black
          then reasons ++ ["Black Screen (Intensity: " +:+ fmt cv 1 black_val +:+ ")"]
          else reasons in
        let '(is_blurry, blur_val) := _check_blur gray in
        let reasons :=
          if is_blurry
          then reasons ++ ["Blurry (Var: " +:+ fmt cv 1 blur_val +:+ ")"]
          else reasons in
        (match reasons with [] => true | _ => false end, reasons)
  end.

End Validator.


End Health.

(** ** The measures of the validator in the words of the specification *)

Module HealthSpec.
Import Frames Num.













End HealthSpec.

(** ** [IP_Camera]: the frame source *)

Module Camera.
Import Frames Num.

(** The attributes of the camera object that the reader, the health
    monitor and [read] use.  [capture] is the handle of the video capture,
    [last_frame] the single-slot buffer, and [heap_] the store in which
    the arrays of the camera live. *)
Record Cam := {
  rotation : Z;
  reconnect_interval : Q;
  is_video_file : bool;
  fps : Q;
  capture : option nat;
  is_open : bool;
  heap_ : heap;
  last_frame : option ref;
  last_frame_time : Q;
  is_connected : bool;
  is_corrupted : bool;
  health_issues : list string;
}.

(** [__init__(..., rotation=0, ..., reconnect_interval=5)] *)
Definition init (is_file : bool) (rot : option Z) (interval : option Q) : Cam :=
  {| rotation := default 0 rot `mod` 360;
     reconnect_interval := default 5%Q interval;
     is_video_file := is_file;
     fps := 0%Q;
     capture := None;
     is_open := false;
     heap_ := [];
     last_frame := None;
     last_frame_time := 0%Q;
     is_connected := false;
     is_corrupted := false;
     health_issues := [] |}.

Definition set_open (b : bool) (c : Cam) : Cam :=
  {| rotation := rotation c; reconnect_interval := reconnect_interval c;
     is_video_file := is_video_file c; fps := fps c; capture := capture c;
     is_open := b; heap_ := heap_ c; last_frame := last_frame c;
     last_frame_time := last_frame_time c; is_connected := is_connected c;
     is_corrupted := is_corrupted c; health_issues := health_issues c |}.

Definition set_capture (h : option nat) (c : Cam) : Cam :=
  {| rotation := rotation c; reconnect_interval := reconnect_interval c;
     is_video_file := is_video_file c; fps := fps c; capture := h;
     is_open := is_open c; heap_ := heap_ c; last_frame := last_frame c;
     last_frame_time := last_frame_time c; is_connected := is_connected c;
     is_corrupted := is_corrupted c; health_issues := health_issues c |}.

Definition set_fps (f : Q) (c : Cam) : Cam :=
  {| rotation := rotation c; reconnect_interval := reconnect_interval c;
     is_video_file := is_video_file c; fps := f; capture := capture c;
     is_open := is_open c; heap_ := heap_ c; last_frame := last_frame c;
     last_frame_time := last_frame_time c; is_connected := is_connected c;
     is_corrupted := is_corrupted c; health_issues := health_issues c |}.

Definition set_heap (h : heap) (c : Cam) : Cam :=
  {| rotation := rotation c; reconnect_interval := reconnect_interval c;
     is_video_file := is_video_file c; fps := fps c; capture := capture c;
     is_open := is_open c; heap_ := h; last_frame := last_frame c;
     last_frame_time := last_frame_time c; is_connected := is_connected c;
     is_corrupted := is_corrupted c; health_issues := health_issues c |}.

Definition set_buffer (r : ref) (t : Q) (c : Cam) : Cam :=
  {| rotation := rotation c; reconnect_interval := reconnect_interval c;
     is_video_file := is_video_file c; fps := fps c; capture := capture c;
     is_open := is_open c; heap_ := heap_ c; last_frame := Some r;
     last_frame_time := t; is_connected := is_connected c;
     is_corrupted := is_corrupted c; health_issues := health_issues c |}.

Definition set_health (conn corr : bool) (issues : list string) (c : Cam) : Cam :=
  {| rotation := rotation c; reconnect_interval := reconnect_interval c;
     is_video_file := is_video_file c; fps := fps c; capture := capture c;
     is_open := is_open c; heap_ := heap_ c; last_frame := last_frame c;
     last_frame_time := last_frame_time c; is_connected := conn;
     is_corrupted := corr; health_issues := issues |}.

Definition set_connected (conn : bool) (c : Cam) : Cam :=
  set_health conn (is_corrupted c) (health_issues c) c.

(** What the reader thread does that others can observe.  [EvRead ok]
    is a call of [self.capture.read()], in the loop or in [connect], and
    whether it delivered a frame. *)
Inductive Event :=
| EvRelease (h : nat)
| EvSleep (seconds : Q)
| EvConnect (codec : string)
| EvRead (ok : bool)
| EvLog (msg : string).

(** The result of [self.capture.read()]. *)
Inductive ReadOutcome :=
| ReadFrame (a : ndarray)
| ReadNothing
| ReadRaises (msg : string).

(** What a call of [connect] meets: the capture it creates, whether it
    is opened, the warm-up read, and the frame rate the capture reports
    ([0] when it reports none). *)
Record ConnectOutcome := {
  conn_handle : nat;
  conn_opened : bool;
  conn_warmup : ReadOutcome;
  conn_fps : Q;
}.

Section WithCv.
Context (cv : Health.Cv).

Definition _apply_rotation (c : Cam) (h : heap) (r : ref) (a : ndarray) : ref * heap :=
  if (rotation c =? 90) || (rotation c =? 180) || (rotation c =? 270)
  then alloc h (Health.rotate cv (rotation c) a)
  else (r, h).

(** [_update_frame_buffer(frame)], for a frame the capture has just
    decoded into a new array. *)
Definition _update_frame_buffer (a : ndarray) (t : Q) (c : Cam) : Cam :=
  let '(r, h1) := alloc (heap_ c) a in
  let '(r', h2) := _apply_rotation c h1 r a in
  set_buffer r' t (set_heap h2 c).

(** [self.fps = self.capture.get(cv2.CAP_PROP_FPS) or 30.0] *)
Definition _extract_metadata (reported : Q) (c : Cam) : Cam :=
  set_fps (if Py.Qeqb0 reported then 30%Q else reported) c.

(** [connect]: the warm-up read it makes on a capture that is opened,
    the result ([None] when the warm-up read raises), and the camera. *)
Definition connect (o : ConnectOutcome) (t : Q) (c : Cam)
  : list Event * option bool * Cam :=
  let c1 := set_capture (Some (conn_handle o)) c in
  if conn_opened o then
    match conn_warmup o with
    | ReadFrame a =>
        ([EvRead true], Some true,
         _extract_metadata (conn_fps o) (_update_frame_buffer a t (set_open true c1)))
    | ReadNothing => ([EvRead false], Some false, c1)
    | ReadRaises _ => ([EvRead false], None, c1)
    end
  else ([], Some false, c1).

Definition _reconnect (o : ConnectOutcome) (t : Q) (c : Cam) : list Event * Cam :=
  let release :=
    match capture c with
    | Some h => [EvRelease h]
    | None => []
    end in
  let '(evs, res, c') := connect o t c in
  (release ++ [EvSleep (reconnect_interval c); EvConnect "auto"] ++ evs ++
   match res with
   | None => [EvLog "Reconnection failed"]
   | Some _ => []
   end, c').

(** What one turn of the reader loop meets. *)
Record ReaderEnv := {
  r_read : ReadOutcome;
  r_connect : ConnectOutcome;
  r_now : Q;
}.

Definition pace (c : Cam) : Event :=
  if is_video_file c then EvSleep (1 / py_max (fps c) 1)%Q else EvSleep (5 # 1000)%Q.

(** One turn of the [while] loop of [_reader_loop]; [read_errors] is the
    local counter of the loop. *)
Definition reader_iter (e : ReaderEnv) (c : Cam) (read_errors : Z) : list Event * Cam * Z :=
  if negb (is_open c) then
    let '(evs, c') := _reconnect (r_connect e) (r_now e) c in
    (evs, c', read_errors)
  else
    match r_read e with
    | ReadFrame a =>
        ([EvRead true; pace c], _update_frame_buffer a (r_now e) c, 0)
    | other =>
        let log :=
          match other with
          | ReadRaises msg => [EvLog ("Read exception: " +:+ msg)]
          | _ => []
          end in
        let read_errors := read_errors + 1 in
        if 10 <? read_errors
        then (EvRead false :: log ++ [EvLog "Connection lost (Read Errors)."],
              set_open false c, read_errors)
        else (EvRead false :: log ++ [pace c], c, read_errors)
    end.

(** The reader loop over the turns the environment offers. *)
Fixpoint reader_loop (envs : list ReaderEnv) (c : Cam) (read_errors : Z)
  : list Event * Cam * Z :=
  match envs with
  | [] => ([], c, read_errors)
  | e :: rest =>
      let '(evs, c', n) := reader_iter e c read_errors in
      let '(evs', c'', n') := reader_loop rest c' n in
      (evs ++ evs', c'', n')
  end.

(** [read]: the flag, the reference of the returned array, and the camera
    (whose store holds the new array). *)
Definition read (c : Cam) : bool * option ref * Cam :=
  if negb (is_open c) then (false, None, c)
  else
    match last_frame c with
    | None => (false, None, c)
    | Some r =>
        match np_copy (heap_ c) r with
        | Some (r', h') => (true, Some r', set_heap h' c)
        | None => (false, None, c)
        end
    end.

(** The freshness threshold of the health loop,
    [max(5.0, (1.0 / max(1.0, self.fps)) * 10)]. *)
Definition threshold (f : Q) : Q := py_max 5 ((1 / py_max 1 f) * 10)%Q.

(** One tick of [_health_loop], after the sleep, at time [now]. *)
Definition health_tick (th : Health.Thresholds) (now : Q) (c : Cam) : Cam :=
  let time_since_last_frame := (now - last_frame_time c)%Q in
  let c1 := set_connected (Qltb time_since_last_frame (threshold (fps c))) c in
  let '(frame_sample, c2) :=
    match last_frame c1 with
    | None => (None, c1)
    | Some r =>
        match np_copy (heap_ c1) r with
        | Some (r', h') => (Some r', set_heap h' c1)
        | None => (None, c1)
        end
    end in
  match frame_sample with
  | Some r' =>
      if is_connected c2 then
        let '(is_healthy, reasons) := Health.validate th cv (heap_ c2 !! r') in
        set_health (is_connected c2) (negb is_healthy) reasons c2
      else set_health (is_connected c2) false ["Disconnected"] c2
  | None => set_health (is_connected c2) false ["Disconnected"] c2
  end.

End WithCv.

(** The threshold in the words of the specification,
    [max(5.0, 10 × 1/fps)]. *)
Definition stated_threshold (f : Q) : Q := Qmax 5 (10 * (1 / f))%Q.

(** The reads made on the capture, in the order of a trace, each with
    whether it delivered a frame. *)
Definition reads (evs : list Event) : list bool :=
  omap (fun ev => match ev with EvRead ok => Some ok | _ => None end) evs.

(** The number of reads that have failed in a row at the end of a trace,
    in the words of the specification: a failed read adds one, any read
    that delivers a frame makes it zero. *)
Definition failed_in_a_row (evs : list Event) : Z :=
  fold_left (fun k (ok : bool) => if ok then 0 else k + 1) (reads evs) 0.

(** The buffer slot, when filled, refers to an array of the store. *)
Definition wf (c : Cam) : Prop :=
  match last_frame c with
  | Some r => (r < length (heap_ c))%nat
  | None => True
  end.

(** An open source has a capture handle. *)
Definition opened_has_capture (c : Cam) : Prop :=
  is_open c = true -> exists h, capture c = Some h.

End Camera.

(** ** [MetadataHandler]: the metadata sink *)

Module Metadata.
Import Py Frames Num.

(** The entries of the stage configuration the handler reads. *)
Record Config := {
  cfg_buffer_size : option Z;
  cfg_flush_interval : option Q;
  cfg_device_id : option string;
  cfg_deviceName : option string;
}.

(** The dictionary [process] puts on the queue. *)
Record Item := {
  i_frame_number : Z;
  i_time_stamp : Q;
  i_track_ids_info : pyval;
  i_raw_frame_path : pyval;
  i_plotted_frame_path : pyval;
  i_inference_time : pyval;
}.

Record Handler := {
  batch_size : Z;
  flush_interval : Q;
  device_id : option string;
  device_name : string;
  data_queue : list Item;
}.

Definition init (config : Config) : Handler :=
  {| batch_size := default 100 (cfg_buffer_size config);
     flush_interval := default 5%Q (cfg_flush_interval config);
     device_id := cfg_device_id config;
     device_name := default "unknown" (cfg_deviceName config);
     data_queue := [] |}.

Definition put (it : Item) (h : Handler) : Handler :=
  {| batch_size := batch_size h; flush_interval := flush_interval h;
     device_id := device_id h; device_name := device_name h;
     data_queue := data_queue h ++ [it] |}.

Definition set_queue (q : list Item) (h : Handler) : Handler :=
  {| batch_size := batch_size h; flush_interval := flush_interval h;
     device_id := device_id h; device_name := device_name h;
     data_queue := q |}.

(** [payload['meta'].get('track_ids_info')] *)
Definition track_info (pl : Engine.Payload) : pyval :=
  default VNone (Engine.meta pl !! "track_ids_info").

Definition make_item (pl : Engine.Payload) : Item :=
  {| i_frame_number := Engine.frame_number pl;
     i_time_stamp := Engine.timestamp pl;
     i_track_ids_info := track_info pl;
     i_raw_frame_path := default (VStr "") (Engine.meta pl !! "raw_frame_path");
     i_plotted_frame_path := default (VStr "") (Engine.meta pl !! "plotted_frame_path");
     i_inference_time := default (VFloat (FNum 0)) (Engine.meta pl !! "inference_time") |}.

Definition truth_msg : string :=
  "The truth value of an array with more than one element is ambiguous".

(** [process(payload)] on the payload object [pl]: the result is the
    object itself (rendered by [true]) or an exception, and the handler
    after the call. *)
Definition process_payload (h : Handler) (pl : Engine.Payload)
  : option string * Handler :=
  match py_truthy (track_info pl) with
  | None => (Some truth_msg, h)
  | Some true => (None, put (make_item pl) h)
  | Some false => (None, h)
  end.

(** The handler as a stage of the engine: the payload is reached through
    its reference, and the private state of the stage is the handler. *)
Definition process (w : Engine.World Handler) (p : ref)
  : Engine.StageResult * Engine.World Handler :=
  match Engine.payloads w !! p with
  | None => (Engine.Raised "no such object", w)
  | Some pl =>
      match process_payload (Engine.ext w) pl with
      | (Some msg, h') =>
          (Engine.Raised msg,
           {| Engine.frames := Engine.frames w; Engine.payloads := Engine.payloads w;
              Engine.ext := h' |})
      | (None, h') =>
          (Engine.Returned p,
           {| Engine.frames := Engine.frames w; Engine.payloads := Engine.payloads w;
              Engine.ext := h' |})
      end
  end.

Definition stage : Engine.Stage Handler := {| Engine.process := process |}.

(** One formatted track, the value of [formatted_tracks[str(track_key)]]. *)
Record Track := {
  track_id : string;
  bbox : list Z;
  confidence : pyfloat;
  label : Z;
  label_name : pyval;
  instance_dict : pyval;
}.

(** The values of the keyword arguments of the call [Metadata(...)]. *)
Record Doc := {
  d_frame_number : Z;
  d_time_stamp : Q;
  d_raw_frame_path : pyval;
  d_plotted_frame_path : pyval;
  d_device : string;
  d_inference_time : pyfloat;
  d_track_ids_info : gmap string Track;
}.

(** The keywords of that call, in [_format_metadata]. *)
Definition doc_keywords : list string :=
  ["frame_number"; "time_stamp"; "raw_frame_path"; "plotted_frame_path";
   "device"; "inference_time"; "track_ids_info"].

(** The fields the document [Metadata] declares, in [metadata_schema.py]. *)
Definition Metadata_fields : list string :=
  ["frame_number"; "time_stamp"; "raw_frame_path"; "plotted_frame_path";
   "device_name"; "inference_time"; "track_ids_info"].

(** The keywords on which the constructor of a mongoengine document raises
    [FieldDoesNotExist]: those that are no field of the document (the
    document is not dynamic and its [meta] does not lift the check), the
    names mongoengine itself accepts apart. *)
Definition undefined_fields (fields keywords : list string) : list string :=
  filter (fun k => k ∉ fields ++ ["id"; "pk"; "_cls"; "_text_score"]) keywords.

Section Format.
(** [rejects]: whether the constructor raises on the values of the
    arguments, once their keywords are accepted. *)
Context (ext : Externals) (rejects : Doc -> bool).

(** The body of the [for track_key, details in raw_tracks.items()] loop;
    [None] when a conversion raises. *)
Definition format_track (details : pyval) : option Track :=
  match details with
  | VDict d =>
      let bbox0 := dict_get "bbox" (VList []) d in
      let bbox1 := if is_ndarray bbox0 then tolist bbox0 else bbox0 in
      xs ← py_iter bbox1;
      ints ← mapM (py_int ext) xs;
      conf ← py_float ext (dict_get "confidence" (VFloat (FNum 0)) d);
      lab ← py_int ext (dict_get "label_id" (VInt 0) d);
      Some {| track_id := py_str ext (dict_get "track_id" VNone d);
              bbox := ints;
              confidence := conf;
              label := lab;
              label_name := dict_get "label_name" (VStr "unknown") d;
              instance_dict := dict_get "instance_dict" (VDict []) d |}
  | _ => None
  end.

(** What normalization promises of the track [t] formatted from the
    details [d]: integer coordinates, a float confidence, an integer
    class id, each the conversion of the value given, and the zone map of
    the details. *)
Definition normalized (d : list (pykey * pyval)) (t : Track) : Prop :=
  let bbox0 := dict_get "bbox" (VList []) d in
  exists xs,
    py_iter (tolist bbox0) = Some xs /\
    Forall2 (fun x z => py_int ext x = Some z) xs (bbox t) /\
    py_float ext (dict_get "confidence" (VFloat (FNum 0)) d) = Some (confidence t) /\
    py_int ext (dict_get "label_id" (VInt 0) d) = Some (label t) /\
    instance_dict t = dict_get "instance_dict" (VDict []) d.

Fixpoint format_tracks (raw : list (pykey * pyval)) (acc : gmap string Track)
  : option (gmap string Track) :=
  match raw with
  | [] => Some acc
  | (track_key, details) :: rest =>
      t ← format_track details;
      format_tracks rest (<[py_str_key track_key := t]> acc)
  end.

(** [self.device_id if self.device_id else self.device_name] *)
Definition device_of (h : Handler) : string :=
  match device_id h with
  | Some s => if String.eqb s "" then device_name h else s
  | None => device_name h
  end.

(** The body of the [try] of [_format_metadata]: the document, or [None]
    when a conversion or the constructor raises. *)
Definition build_doc (h : Handler) (item : Item) : option Doc :=
  match i_track_ids_info item with
  | VDict raw_tracks =>
      tracks ← format_tracks raw_tracks ∅;
      inf ← py_float ext (i_inference_time item);
      let doc := {| d_frame_number := i_frame_number item;
                    d_time_stamp := i_time_stamp item;
                    d_raw_frame_path := i_raw_frame_path item;
                    d_plotted_frame_path := i_plotted_frame_path item;
                    d_device := device_of h;
                    d_inference_time := inf;
                    d_track_ids_info := tracks |} in
      match undefined_fields Metadata_fields doc_keywords with
      | [] => if rejects doc then None else Some doc
      | _ :: _ => None
      end
  | _ => None
  end.

Inductive Event :=
| EvGet (timeout : Q)
| EvInsert (batch : list Doc)
| EvDebug (msg : string)
| EvError (msg : string).

(** [_format_metadata(item)]: the document or [None], with the log. *)
Definition _format_metadata (h : Handler) (item : Item) : option Doc * list Event :=
  match build_doc h item with
  | Some doc => (Some doc, [])
  | None => (None, [EvError "Metadata formatting error"])
  end.

(** [_flush_to_db(buffer)]; [insert_ok] tells whether the bulk insert of
    the document store succeeds. *)
Definition _flush_to_db (insert_ok : bool) (buffer : list Doc) : list Event :=
  if insert_ok
  then [EvInsert buffer; EvDebug "Flushed records."]
  else [EvInsert buffer; EvError "Database batch insert error"].

(** The local variables of [_batch_worker], and the documents the store
    holds. *)
Record Worker := {
  buffer : list Doc;
  last_flush_time : Q;
  stored : list Doc;
}.

(** What one turn of the worker loop meets: the clock when the flush
    conditions are checked and after a flush, and the fate of an insert. *)
Record WorkerEnv := {
  t_check : Q;
  t_flushed : Q;
  insert_ok : bool;
}.

Definition should_flush (h : Handler) (buf : list Doc) (last now : Q) : bool :=
  let time_since_flush := (now - last)%Q in
  let is_buffer_full := batch_size h <=? Z.of_nat (length buf) in
  let is_time_up := Qgeb time_since_flush (flush_interval h) in
  match buf with
  | [] => false
  | _ => is_buffer_full || is_time_up
  end.

(** The first half of a turn of the worker loop:
    [self.data_queue.get(timeout=1)], and the document appended to the
    buffer unless the queue stayed empty or the item was not formatted. *)
Definition drain (h : Handler) (buf : list Doc) : list Event * Handler * list Doc :=
  match data_queue h with
  | item :: rest =>
      let '(mongo_obj, log) := _format_metadata h item in
      (EvGet 1 :: log, set_queue rest h,
       match mongo_obj with
       | Some doc => buf ++ [doc]
       | None => buf
       end)
  | [] => ([EvGet 1], h, buf)
  end.

(** One turn of the [while not self.stop_event.is_set()] loop. *)
Definition worker_iter (e : WorkerEnv) (h : Handler) (wk : Worker)
  : list Event * Handler * Worker :=
  let '(evs1, h1, buf1) := drain h (buffer wk) in
  if should_flush h buf1 (last_flush_time wk) (t_check e)
  then (evs1 ++ _flush_to_db (insert_ok e) buf1, h1,
        {| buffer := []; last_flush_time := t_flushed e;
           stored := if insert_ok e then stored wk ++ buf1 else stored wk |})
  else (evs1, h1,
        {| buffer := buf1; last_flush_time := last_flush_time wk; stored := stored wk |}).

(** The worker loop over the turns the environment offers; between two
    turns the pipeline may have put more items on the queue. *)
Fixpoint worker_loop (turns : list (list Item * WorkerEnv)) (h : Handler) (wk : Worker)
  : list Event * Handler * Worker :=
  match turns with
  | [] => ([], h, wk)
  | (arrived, e) :: rest =>
      let '(evs, h', wk') := worker_iter e (set_queue (data_queue h ++ arrived) h) wk in
      let '(evs', h'', wk'') := worker_loop rest h' wk' in
      (evs ++ evs', h'', wk'')
  end.

Definition inserts (evs : list Event) : list (list Doc) :=
  flat_map (fun e => match e with EvInsert b => [b] | _ => [] end) evs.

Definition is_get (e : Event) : bool :=
  match e with
  | EvGet _ => true
  | _ => false
  end.

End Format.

End Metadata.

(** ** The metadata worker from start to end *)

Module MetadataExt.
Import Py Frames Num Metadata.

Section Worker.
Context (ext : Externals) (rejects : Doc -> bool).

(** The documents the worker makes of the items it takes off the queue,
    in their order; an item that is not formatted leaves none. *)
Definition formatted (h : Handler) (items : list Item) : list Doc :=
  omap (build_doc ext rejects h) items.

(** The end of [_batch_worker], reached once [close] has set the stop
    event: [if buffer: self._flush_to_db(buffer)].  The result is the log
    and the documents the store holds. *)
Definition final_flush (ok : bool) (wk : Worker) : list Event * list Doc :=
  match buffer wk with
  | [] => ([], stored wk)
  | _ => (_flush_to_db ok (buffer wk),
          if ok then stored wk ++ buffer wk else stored wk)
  end.

(** [_batch_worker]: an empty buffer, the clock read once, the loop over
    the turns until the stop event is set, and the final flush. *)
Definition _batch_worker (t0 : Q) (turns : list (list Item * WorkerEnv))
    (final_ok : bool) (h : Handler) (stored0 : list Doc)
  : list Event * Handler * list Doc :=
  let wk0 := {| buffer := []; last_flush_time := t0; stored := stored0 |} in
  let '(evs, h', wk') := worker_loop ext rejects turns h wk0 in
  let '(evs', st) := final_flush final_ok wk' in
  (evs ++ evs', h', st).

End Worker.


End MetadataExt.

(** ** More of the frame source *)

Module CameraExt.
Import Frames Num Camera.


(** A call of [connect] that does not end in [return True]. *)
Definition connect_fails (o : ConnectOutcome) : bool :=
  negb (conn_opened o) ||
  match conn_warmup o with
  | ReadFrame _ => false
  | _ => true
  end.

Definition sleep_of (e : Event) : option Q :=
  match e with
  | EvSleep s => Some s
  | _ => None
  end.

Definition is_read (e : Event) : bool :=
  match e with
  | EvRead _ => true
  | _ => false
  end.

Definition is_connect (e : Event) : bool :=
  match e with
  | EvConnect _ => true
  | _ => false
  end.

(** The frame [_apply_rotation] makes of a frame of the capture. *)
Definition oriented (cv : Health.Cv) (c : Cam) (a : ndarray) : ndarray :=
  if (rotation c =? 90) || (rotation c =? 180) || (rotation c =? 270)
  then Health.rotate cv (rotation c) a
  else a.

End CameraExt.

(** ** More of the pipeline runtime: [build_pipeline] *)

Module EngineExt.
Import Py Frames Engine.

Definition capture_number (e : Event) : option Z :=
  match e with
  | EvCapture n _ => Some n
  | _ => None
  end.

Definition is_cleanup (e : Event) : bool :=
  match e with
  | EvCleanup => true
  | _ => false
  end.

(** The world a run has reached. *)
Definition final_world {E} (s : Status E) : World E :=
  match s with
  | Running st => world st
  | Exited w => w
  end.

(** *** [cleanup] *)

(** The names an [IP_Camera] object has: the methods of the class and the
    attributes [__init__] sets. *)
Definition IP_Camera_attrs : list string :=
  ["__init__"; "connect"; "_connect_file"; "_connect_stream"; "_reconnect"; "read";
   "start_reader_loop"; "_reader_loop"; "_update_frame_buffer";
   "start_health_monitor"; "_health_loop"; "_log_health_status"; "close";
   "_apply_rotation"; "_extract_metadata"; "_detect_stream_codec"; "_gst_pipeline";
   "_signal_handler";
   "ip_address"; "device_name"; "rotation"; "zones"; "process_skip_frames";
   "reconnect_interval"; "logger"; "capture"; "is_open"; "is_video_file"; "fps";
   "frame_width"; "frame_height"; "_lock"; "_last_frame"; "_last_frame_time";
   "reader_thread"; "reader_stop_event"; "health_validator"; "health_thread";
   "health_stop_event"; "is_connected"; "is_corrupted"; "health_issues"].

Inductive CleanupEvent :=
| CLog (msg : string)
| CDisconnect
| CClose (i : nat).

Definition no_disconnect_msg : string := "object has no attribute 'disconnect'".

(** The modules of the pipeline that have a [close] attribute, by their
    positions. *)
Definition closers_of (has_close : list bool) : list nat :=
  omap (fun ib : nat * bool => if ib.2 then Some ib.1 else None) (imap pair has_close).

(** [cleanup]: [camera] is [self.camera] by the names its object has
    ([None] while no camera has been built; an object is true unless its
    class says otherwise, which [IP_Camera] does not), [has_close] tells
    of each module of the pipeline whether [hasattr(mod, 'close')].  The
    result is what is called, in order, and the [AttributeError] that
    ends the call, if there is one; a [close] hook is taken to return. *)
Definition cleanup (camera : option (list string)) (has_close : list bool)
  : list CleanupEvent * option string :=
  let closes := map CClose (closers_of has_close) in
  match camera with
  | Some attrs =>
      if bool_decide ("disconnect" ∈ attrs)
      then (CLog "Cleaning up..." :: CDisconnect :: closes, None)
      else ([CLog "Cleaning up..."], Some no_disconnect_msg)
  | None => (CLog "Cleaning up..." :: closes, None)
  end.

Definition closed_module (e : CleanupEvent) : option nat :=
  match e with
  | CClose i => Some i
  | _ => None
  end.

(** *** [build_pipeline] *)

(** A value of the configuration a module is built with: a value of the
    JSON file, or the camera object the engine injects. *)
Inductive cfgval :=
| CVal (v : pyval)
| CCamera.

(** The value an entry has under ["config"]: a JSON object, or any
    other JSON value ([null], a number, a string, a list). *)
Inductive jconfig :=
| JObject (m : gmap string pyval)
| JOther (v : pyval).

(** An entry of ["modules"] in the JSON pipeline file; an entry may lack
    any of its keys. *)
Record Step := {
  s_name : option string;
  s_module_path : option string;
  s_class_name : option string;
  s_config : option jconfig;
}.

(** How [build_pipeline] ends: all modules built, [sys.exit(1)] after a
    module failed to load, or the [KeyError] of an entry without one of
    its three names.  In each case [loaded] is [self.pipeline_modules]. *)
Inductive BuildOutcome (I : Type) :=
| Built (loaded : list I)
| SysExit (code : Z) (loaded : list I)
| KeyError (key : string) (loaded : list I).
Arguments Built {I} _.
Arguments SysExit {I} _ _.
Arguments KeyError {I} _ _.

(** [runtime_config = static_config.copy()] with the camera and the
    device name put in. *)
Definition runtime_config (device_name : pyval) (static_config : gmap string pyval)
  : gmap string cfgval :=
  <["deviceName" := CVal device_name]>
    (<["ip_camera" := CCamera]> (CVal <$> static_config)).

Section Build.
(** [resolve mod_path cls_name] is [importlib.import_module] followed by
    [getattr]: the class, or [None] when either raises; the class applied
    to a configuration is the instance, or [None] when the constructor
    raises. *)
Context {I : Type}
        (resolve : string -> string -> option (gmap string cfgval -> option I)).

(** The body of the [try]: import, [static_config.copy()] with the two
    entries put in, and the call of the class.  A configuration that is
    no JSON object has no [copy] or takes no string index: that raises
    like a failed import, and is caught with it. *)
Definition load_module (device_name : pyval) (mod_path cls_name : string)
    (static_config : jconfig) : option I :=
  match resolve mod_path cls_name with
  | None => None
  | Some class_ref =>
      match static_config with
      | JObject m => class_ref (runtime_config device_name m)
      | JOther _ => None
      end
  end.

Fixpoint build_pipeline (device_name : pyval) (steps : list Step) (loaded : list I)
  : BuildOutcome I :=
  match steps with
  | [] => Built loaded
  | step :: rest =>
      match s_name step, s_module_path step, s_class_name step with
      | None, _, _ => KeyError "name" loaded
      | Some _, None, _ => KeyError "module_path" loaded
      | Some _, Some _, None => KeyError "class_name" loaded
      | Some name, Some mod_path, Some cls_name =>
          let static_config := default (JObject ∅) (s_config step) in
          match load_module device_name mod_path cls_name static_config with
          | None => SysExit 1 loaded
          | Some instance => build_pipeline device_name rest (loaded ++ [instance])
          end
      end
  end.

(** The instance a well-formed entry is built into. *)
Definition instance_of (device_name : pyval) (step : Step) : option I :=
  match s_name step, s_module_path step, s_class_name step with
  | Some _, Some mod_path, Some cls_name =>
      load_module device_name mod_path cls_name (default (JObject ∅) (s_config step))
  | _, _, _ => None
  end.

(** An entry that has its three names. *)
Definition named (step : Step) : bool :=
  match s_name step, s_module_path step, s_class_name step with
  | Some _, Some _, Some _ => true
  | _, _, _ => false
  end.

End Build.

End EngineExt.

(** ** Opening the stream: [_connect_stream] *)

Module StreamExt.
Import Stdlib.Strings.Ascii.

(** [c.lower()], on the letters of ASCII. *)
Definition lower_ascii (c : ascii) : ascii :=
  let n := nat_of_ascii c in
  if (65 <=? n)%nat && (n <=? 90)%nat then ascii_of_nat (n + 32) else c.

Fixpoint lower (s : string) : string :=
  match s with
  | EmptyString => EmptyString
  | String c rest => String (lower_ascii c) (lower rest)
  end.

(** White space, as [str.strip()] sees it in ASCII. *)
Definition is_space (c : ascii) : bool :=
  let n := nat_of_ascii c in
  (n =? 32)%nat || ((9 <=? n)%nat && (n <=? 13)%nat) ||
  ((28 <=? n)%nat && (n <=? 31)%nat).

Fixpoint lstrip (s : string) : string :=
  match s with
  | EmptyString => EmptyString
  | String c rest => if is_space c then lstrip rest else s
  end.

Definition strip (s : string) : string :=
  String.rev (lstrip (String.rev (lstrip s))).

(** [needle in s] *)
Fixpoint contains (needle s : string) : bool :=
  String.prefix needle s ||
  match s with
  | EmptyString => false
  | String _ rest => contains needle rest
  end.

(** [_detect_stream_codec]; [probe] is the return code and the output of
    [ffprobe], or [None] when running it raises or times out. *)
Definition _detect_stream_codec (probe : option (Z * string)) : string :=
  match probe with
  | Some (returncode, stdout) =>
      if returncode =? 0 then
        let codec := lower (strip stdout) in
        if contains "hevc" codec || contains "265" codec then "h265" else "h264"
      else "h264"
  | None => "h264"
  end.

(** [_gst_pipeline(uri, codec, latency_ms)] *)
Definition _gst_pipeline (uri codec : string) (latency_ms : Z) : string :=
  let c := lower codec in
  let depay := if String.eqb c "h264" then "rtph264depay" else "rtph265depay" in
  let parse := if String.eqb c "h264" then "h264parse" else "h265parse" in
  let decoder := if String.eqb c "h264" then "avdec_h264" else "avdec_h265" in
  "rtspsrc location=" +:+ uri +:+ " protocols=tcp latency=" +:+ pretty latency_ms
    +:+ " ! " +:+ depay +:+ " ! " +:+ parse +:+ " ! " +:+ decoder
    +:+ " ! videoconvert ! " +:+ "video/x-raw,format=BGR ! "
    +:+ "appsink drop=true max-buffers=1 sync=false".

(** A capture [_connect_stream] creates. *)
Inductive Attempt :=
| Gst (pipeline : string)
| FFmpeg (uri : string).

(** [_connect_stream(preferred_codec)]: the captures created, in order,
    and whether the last one is opened.  [o1], [o2] and [o3] tell whether
    the first, second and third capture created is opened. *)
Definition _connect_stream (probe : option (Z * string)) (o1 o2 o3 : bool)
    (uri preferred_codec : string) : list Attempt * bool :=
  let preferred_codec :=
    if String.eqb preferred_codec "auto" then _detect_stream_codec probe
    else preferred_codec in
  let first := Gst (_gst_pipeline uri preferred_codec 200) in
  if o1 then ([first], true)
  else
    let alt_codec := if String.eqb preferred_codec "h265" then "h264" else "h265" in
    let second := Gst (_gst_pipeline uri alt_codec 200) in
    if o2 then ([first; second], true)
    else ([first; second; FFmpeg uri], o3).

End StreamExt.

(** ** Sample data *)

Module Samples.
Import Py Frames Engine.

Definition st0 : LoopState unit :=
  {| world := {| frames := []; payloads := []; ext := tt |}; frame_count := 0 |}.

Definition px : ndarray := Gray [[7]].

(** A module whose [process] raises on every payload. *)
Definition raising : Stage unit :=
  {| process := fun w _ => (Raised "boom", w) |}.

(** A module that returns the payload it is given. *)
Definition passing : Stage unit :=
  {| process := fun w p => (Returned p, w) |}.

(** A module that returns [None]. *)
Definition dropping : Stage unit :=
  {| process := fun w _ => (ReturnedNone, w) |}.

(** Stand-ins for the library functions, for running the definitions. *)
Definition cv0 : Health.Cv :=
  {| Health.bgr2gray := fun '(b, g, r) => (b + g + r) / 3;
     Health.log2 := fun _ => 0%Q;
     Health.rotate := fun _ a => a;
     Health.fmt := fun _ _ => "" |}.

Definition th0 : Health.Thresholds := Health.init None None None None.

(** A camera that reports half a frame per second. *)
Definition slow_cam : Camera.Cam :=
  Camera.set_fps (1 # 2) (Camera.init false None None).

(** An open camera with one buffered frame. *)
Definition open_cam : Camera.Cam :=
  Camera.set_open true
    (Camera.set_capture (Some 7%nat)
       (Camera.set_buffer 0%nat 0 (Camera.set_heap [px] (Camera.init false None None)))).

Definition no_connect : Camera.ConnectOutcome :=
  {| Camera.conn_handle := 8%nat; Camera.conn_opened := false;
     Camera.conn_warmup := Camera.ReadNothing; Camera.conn_fps := 0 |}.

(** A turn of the reader on which the read fails. *)
Definition fail_env : Camera.ReaderEnv :=
  {| Camera.r_read := Camera.ReadNothing; Camera.r_connect := no_connect;
     Camera.r_now := 1 |}.

(** A call of [connect] that succeeds: the capture is opened and the
    warm-up read delivers [px]. *)
Definition good_connect : Camera.ConnectOutcome :=
  {| Camera.conn_handle := 9%nat; Camera.conn_opened := true;
     Camera.conn_warmup := Camera.ReadFrame px; Camera.conn_fps := 25 |}.

(** A turn on which the reader, if it reconnects, succeeds, and if it
    reads, gets nothing. *)
Definition reconnect_env : Camera.ReaderEnv :=
  {| Camera.r_read := Camera.ReadNothing; Camera.r_connect := good_connect;
     Camera.r_now := 3 |}.

(** A call of [connect] whose capture is opened but delivers nothing on
    the warm-up read. *)
Definition mute_connect : Camera.ConnectOutcome :=
  {| Camera.conn_handle := 10%nat; Camera.conn_opened := true;
     Camera.conn_warmup := Camera.ReadNothing; Camera.conn_fps := 0 |}.

Definition mute_env : Camera.ReaderEnv :=
  {| Camera.r_read := Camera.ReadNothing; Camera.r_connect := mute_connect;
     Camera.r_now := 4 |}.

(** Python built-ins that refuse every string, for running the
    definitions on numbers. *)
Definition ext0 : Externals :=
  {| int_of_str := fun _ => None;
     float_of_str := fun _ => None;
     str_of_other := fun _ => "" |}.

(** One detection, as the predictor and the zone manager deliver it. *)
Definition track3 : pyval :=
  VDict [(KStr "track_id", VInt 3);
         (KStr "bbox", VNdarray [VFloat (FNum (21 # 2)); VInt 20; VInt 30; VInt 40]);
         (KStr "confidence", VFloat (FNum (9 # 10)));
         (KStr "label_id", VInt 2);
         (KStr "label_name", VStr "person");
         (KStr "instance_dict",
          VDict [(KStr "door", VDict [(KStr "location", VStr "inside")])])].

Definition pl1 : Payload :=
  {| frame := 0%nat; original_frame := 1%nat; timestamp := 0; frame_number := 5;
     meta := {[ "track_ids_info" := VDict [(KInt 3, track3)] ]} |}.

Definition h0 : Metadata.Handler :=
  Metadata.init {| Metadata.cfg_buffer_size := None;
                   Metadata.cfg_flush_interval := None;
                   Metadata.cfg_device_id := None;
                   Metadata.cfg_deviceName := Some "cam-1" |}.

Definition w1 : World Metadata.Handler :=
  {| frames := [px; px]; payloads := [pl1]; ext := h0 |}.

(** A record with one track that converts and one whose class id is
    [None]. *)
Definition bad_details : pyval := VDict [(KStr "label_id", VNone)].


(** A document as the worker would buffer it. *)
Definition doc0 : Metadata.Doc :=
  {| Metadata.d_frame_number := 5; Metadata.d_time_stamp := 0;
     Metadata.d_raw_frame_path := VStr ""; Metadata.d_plotted_frame_path := VStr "";
     Metadata.d_device := "cam-1"; Metadata.d_inference_time := FNum 0;
     Metadata.d_track_ids_info := ∅ |}.

(** Details that have none of the entries the sink reads. *)
Definition bare_details : list (pykey * pyval) := [(KStr "speed", VInt 3)].

(** A turn of the reader on which the capture delivers [px]. *)
Definition frame_env : Camera.ReaderEnv :=
  {| Camera.r_read := Camera.ReadFrame px; Camera.r_connect := no_connect;
     Camera.r_now := 2 |}.

(** A registry with the one module ["stages.ok"], whose classes build
    the number of entries of their configuration. *)
Definition resolve0 (mod_path cls_name : string)
  : option (gmap string EngineExt.cfgval -> option nat) :=
  if String.eqb mod_path "stages.ok" then Some (fun cfg => Some (size cfg)) else None.

Definition step_ok : EngineExt.Step :=
  {| EngineExt.s_name := Some "first"; EngineExt.s_module_path := Some "stages.ok";
     EngineExt.s_class_name := Some "Stage"; EngineExt.s_config := None |}.

Definition step_missing : EngineExt.Step :=
  {| EngineExt.s_name := Some "second"; EngineExt.s_module_path := Some "stages.gone";
     EngineExt.s_class_name := Some "Stage"; EngineExt.s_config := None |}.

(** An entry of the JSON file with ["config": null]. *)
Definition step_null : EngineExt.Step :=
  {| EngineExt.s_name := Some "third"; EngineExt.s_module_path := Some "stages.ok";
     EngineExt.s_class_name := Some "Stage";
     EngineExt.s_config := Some (EngineExt.JOther VNone) |}.

End Samples.

(** * Properties *)

(** ** The pipeline runtime *)

Module EngineFacts.
Import Py Frames Engine.

Section Runtime.
Context {E : Type}.
Implicit Types (mods : list (Stage E)) (w : World E) (st : LoopState E).

Lemma run_modules_order mods : forall i w p evs o w',
  run_modules i mods w p = (evs, o, w') ->
  omap invoked_stage evs = seq i (length evs) /\
  (length evs <= length mods)%nat /\
  match o with
  | Completed _ => length evs = length mods
  | _ => (0 < length evs)%nat
  end.
Proof.
  induction mods as [|m rest IH]; intros i w p evs o w' H; simpl in H.
  - inversion H; subst. simpl. auto.
  - destruct (process m w p) as [[p'| |msg] w0] eqn:Hm.
    + destruct (run_modules (S i) rest w0 p') as [[evs1 o1] w1] eqn:Hr.
      inversion H; subst. apply IH in Hr as (Ho & Hl & Hc).
      change (omap invoked_stage (EvInvoke i p :: evs1))
        with (i :: omap invoked_stage evs1).
      rewrite Ho. simpl. split; [done|]. split; [lia|].
      destruct o; lia.
    + inversion H; subst. simpl. split; [done|]. split; lia.
    + inversion H; subst. simpl. split; [done|]. split; lia.
Qed.

Lemma run_modules_head mods i w p evs o w' :
  run_modules i mods w p = (evs, o, w') ->
  head (omap invoked_payload evs) = match mods with [] => None | _ => Some p end.
Proof.
  destruct mods as [|m rest]; simpl; intros H.
  - by inversion H.
  - destruct (process m w p) as [[p'| |msg] w0].
    + destruct (run_modules (S i) rest w0 p') as [[evs1 o1] w1].
      by inversion H.
    + by inversion H.
    + by inversion H.
Qed.

(** The modules after a prefix that completes start from the payload and
    the world the prefix leaves. *)
Lemma run_modules_app ms1 : forall i w p e1 p1 wa ms2,
  run_modules i ms1 w p = (e1, Completed p1, wa) ->
  run_modules i (ms1 ++ ms2) w p =
    let '(e2, o, wb) := run_modules (i + length ms1) ms2 wa p1 in
    (e1 ++ e2, o, wb).
Proof.
  induction ms1 as [|m rest IH]; intros i w p e1 p1 wa ms2 H; simpl in H.
  - inversion H; subst. simpl. rewrite Nat.add_0_r.
    by destruct (run_modules i ms2 wa p1) as [[e2 o] wb].
  - simpl. destruct (process m w p) as [[p'| |msg] w0] eqn:Hm; try by inversion H.
    destruct (run_modules (S i) rest w0 p') as [[evs1 o1] w1] eqn:Hr.
    inversion H; subst.
    rewrite (IH _ _ _ _ _ _ ms2 Hr).
    replace (S i + length rest)%nat with (i + S (length rest))%nat by lia.
    by destruct (run_modules (i + S (length rest)) ms2 wa p1) as [[e2 o] wb].
Qed.

Lemma run_cons mods t ts st :
  run mods (t :: ts) st =
    if shutdown_set t || negb (cam_open t) then ([EvCleanup], Exited (world st))
    else if negb (read_ret t) then
      (EvWarnEmpty :: EvSleep (1 # 10) :: (run mods ts st).1, (run mods ts st).2)
    else
      match read_frame t with
      | None => ([EvLogError no_frame_msg; EvCleanup], Exited (world st))
      | Some a =>
          let p := (build_payload st a (now t)).1 in
          let w0 := (build_payload st a (now t)).2 in
          match run_modules 0 mods w0 p with
          | (evs, Failed msg, w1) =>
              (EvCapture (frame_count st) p :: evs ++ [EvLogError msg; EvCleanup],
               Exited w1)
          | (evs, _, w1) =>
              let r := run mods ts {| world := w1; frame_count := frame_count st + 1 |} in
              (EvCapture (frame_count st) p :: evs ++ r.1, r.2)
          end
      end.
Proof.
  cbn [run].
  destruct (shutdown_set t || negb (cam_open t)); [done|].
  destruct (negb (read_ret t)).
  - by destruct (run mods ts st).
  - destruct (read_frame t) as [a|]; [|done].
    destruct (build_payload st a (now t)) as [p w0]. cbn [fst snd].
    destruct (run_modules 0 mods w0 p) as [[evs o] w1].
    destruct o; [|
      |done];
      by destruct (run mods ts {| world := w1; frame_count := frame_count st + 1 |}).
Qed.

Lemma run_app mods pre : forall st evs0 st1 more,
  run mods pre st = (evs0, Running st1) ->
  run mods (pre ++ more) st = (evs0 ++ (run mods more st1).1, (run mods more st1).2).
Proof.
  induction pre as [|t ts IH]; intros st evs0 st1 more H.
  - simpl in H. inversion H; subst. simpl. by destruct (run mods more st1).
  - rewrite <- app_comm_cons. rewrite run_cons in H |- *.
    destruct (shutdown_set t || negb (cam_open t)); [by inversion H|].
    destruct (negb (read_ret t)).
    + destruct (run mods ts st) as [evs s] eqn:Hr.
      inversion H; subst. rewrite (IH _ _ _ more Hr). done.
    + destruct (read_frame t) as [a|]; [|by inversion H].
      cbv zeta in H |- *.
      destruct (run_modules 0 mods _ _) as [[evs o] w1].
      destruct o as [q| |msg]; [| |by inversion H].
      * destruct (run mods ts _) as [evs' s] eqn:Hr.
        inversion H; subst. rewrite (IH _ _ _ more Hr). simpl.
        by rewrite <- app_assoc.
      * destruct (run mods ts _) as [evs' s] eqn:Hr.
        inversion H; subst. rewrite (IH _ _ _ more Hr). simpl.
        by rewrite <- app_assoc.
Qed.

Lemma build_payload_eq st a tm :
  build_payload st a tm =
    (length (payloads (world st)),
     {| frames := (frames (world st) ++ [a]) ++ [a];
        payloads := payloads (world st) ++
          [{| frame := length (frames (world st));
              original_frame := S (length (frames (world st)));
              timestamp := tm; frame_number := frame_count st; meta := ∅ |}];
        ext := ext (world st) |}).
Proof.
  unfold build_payload, alloc. rewrite length_app. simpl.
  by rewrite Nat.add_1_r.
Qed.

(** C2.  For a captured frame the runtime builds a new payload object
    holding the frame, a copy of it in an array of its own, the capture
    time, the frame number and an empty [meta]; it then calls the modules
    in the order of the list, each at most once and from the first on,
    every module on the payload the one before it returned.  When all of
    them return a payload each has been called exactly once; when one
    returns [None] (or raises) none after it is called.  After a frame
    that completed or was aborted the loop goes on with the next turn and
    the next frame number. *)
Theorem frame_iteration mods st (a : ndarray) (tm : Q) (ts : list Tick) :
  let w := world st in
  let rf := length (frames w) in
  let p := length (payloads w) in
  let w0 := (build_payload st a tm).2 in
  (build_payload st a tm).1 = p /\
  payloads w0 !! p =
    Some {| frame := rf; original_frame := S rf; timestamp := tm;
            frame_number := frame_count st; meta := ∅ |} /\
  frames w0 !! rf = Some a /\
  frames w0 !! S rf = Some a /\
  (forall b, np_write (frames w0) rf b !! S rf = Some a) /\
  (forall b, np_write (frames w0) (S rf) b !! rf = Some a) /\
  (forall r, (r < rf)%nat -> frames w0 !! r = frames w !! r) /\
  (forall q, (q < p)%nat -> payloads w0 !! q = payloads w !! q) /\
  exists evs o w1,
    run_modules 0 mods w0 p = (evs, o, w1) /\
    omap invoked_stage evs = seq 0 (length evs) /\
    (length evs <= length mods)%nat /\
    head (omap invoked_payload evs) = match mods with [] => None | _ => Some p end /\
    (forall ms1 m ms2 e1 p1 wa,
        mods = ms1 ++ m :: ms2 ->
        run_modules 0 ms1 w0 p = (e1, Completed p1, wa) ->
        match process m wa p1 with
        | (Returned p2, wb) =>
            evs = e1 ++ EvInvoke (length ms1) p1 ::
                    (run_modules (S (length ms1)) ms2 wb p2).1.1
        | (ReturnedNone, wb) =>
            evs = e1 ++ [EvInvoke (length ms1) p1] /\ o = Aborted /\ w1 = wb
        | (Raised msg, wb) =>
            evs = e1 ++ [EvInvoke (length ms1) p1] /\ o = Failed msg /\ w1 = wb
        end) /\
    let next := {| world := w1; frame_count := frame_count st + 1 |} in
    match o with
    | Completed _ =>
        length evs = length mods /\
        run mods (capture_tick a tm :: ts) st =
          (EvCapture (frame_count st) p :: evs ++ (run mods ts next).1,
           (run mods ts next).2)
    | Aborted =>
        (0 < length evs)%nat /\
        run mods (capture_tick a tm :: ts) st =
          (EvCapture (frame_count st) p :: evs ++ (run mods ts next).1,
           (run mods ts next).2)
    | Failed msg =>
        (0 < length evs)%nat /\
        run mods (capture_tick a tm :: ts) st =
          (EvCapture (frame_count st) p :: evs ++ [EvLogError msg; EvCleanup],
           Exited w1)
    end.
Proof.
  intros w rf p w0. subst w0. rewrite build_payload_eq. cbn [fst snd frames payloads].
  fold w. fold rf. fold p.
  assert (Hrf : length (frames w ++ [a]) = S rf)
    by (rewrite length_app; simpl; subst rf; lia).
  split; [done|].
  split. { rewrite lookup_app_r by (subst p; lia). by rewrite Nat.sub_diag. }
  split. { rewrite lookup_app_l by lia. rewrite lookup_app_r by (subst rf; lia).
           by rewrite Nat.sub_diag. }
  split. { rewrite lookup_app_r by lia. by rewrite Hrf, Nat.sub_diag. }
  split. { intros b. unfold np_write. rewrite list_lookup_insert_ne by lia.
           rewrite lookup_app_r by lia. by rewrite Hrf, Nat.sub_diag. }
  split. { intros b. unfold np_write. rewrite list_lookup_insert_ne by lia.
           rewrite lookup_app_l by lia. rewrite lookup_app_r by (subst rf; lia).
           by rewrite Nat.sub_diag. }
  split. { intros r Hr. rewrite lookup_app_l by lia. by rewrite lookup_app_l by (subst rf; lia). }
  split. { intros q Hq. by rewrite lookup_app_l by (subst p; lia). }
  set (w0 := {| frames := _; payloads := _; ext := _ |}).
  destruct (run_modules 0 mods w0 p) as [[evs o] w1] eqn:Hrun.
  exists evs, o, w1. split; [done|].
  destruct (run_modules_order _ _ _ _ _ _ _ Hrun) as (Hord & Hlen & Hout).
  split; [done|]. split; [done|].
  split; [by apply (run_modules_head _ _ _ _ _ _ _ Hrun)|].
  split.
  { intros ms1 m ms2 e1 p1 wa -> Hpre.
    rewrite (run_modules_app _ _ _ _ _ _ _ (m :: ms2) Hpre) in Hrun.
    cbn [run_modules Nat.add] in Hrun.
    destruct (process m wa p1) as [[p2| |msg] wb].
    - destruct (run_modules (S (length ms1)) ms2 wb p2) as [[e2 o2] w2].
      by inversion Hrun.
    - by inversion Hrun.
    - by inversion Hrun. }
  assert (Hstep := run_cons mods (capture_tick a tm) ts st).
  cbn [capture_tick shutdown_set cam_open read_ret read_frame now orb negb] in Hstep.
  rewrite build_payload_eq in Hstep. cbn [fst snd] in Hstep. cbv zeta in Hstep.
  fold w in Hstep. fold rf in Hstep. fold p in Hstep. fold w0 in Hstep.
  rewrite Hrun in Hstep.
  destruct o; (split; [done|]); exact Hstep.
Qed.

(** C1, as the code has it.  When a module raises while a frame goes
    through the pipeline, the exception leaves the capture loop: the
    modules after it are not called, the error is logged once, and the
    loop is left for the [finally] clause, which calls [cleanup];
    whatever turns the environment still offers, no further frame is
    captured and no module is called again. *)
Theorem stage_error_ends_run mods pre st evs0 st1 (a : ndarray) (tm : Q)
    ms1 m ms2 e1 p1 wa msg wb (rest : list Tick) :
  run mods pre st = (evs0, Running st1) ->
  mods = ms1 ++ m :: ms2 ->
  run_modules 0 ms1 (build_payload st1 a tm).2 (build_payload st1 a tm).1
    = (e1, Completed p1, wa) ->
  process m wa p1 = (Raised msg, wb) ->
  run mods (pre ++ capture_tick a tm :: rest) st =
    (evs0 ++ EvCapture (frame_count st1) (build_payload st1 a tm).1 ::
       e1 ++ [EvInvoke (length ms1) p1; EvLogError msg; EvCleanup],
     Exited wb).
Proof.
  intros Hpre -> Hms1 Hm.
  rewrite (run_app _ _ _ _ _ _ Hpre), run_cons.
  cbn [capture_tick shutdown_set cam_open read_ret read_frame now orb negb].
  cbv zeta.
  rewrite (run_modules_app _ _ _ _ _ _ _ (m :: ms2) Hms1).
  cbn [run_modules Nat.add]. rewrite Hm. cbn [fst snd].
  by rewrite <- app_assoc.
Qed.

End Runtime.

End EngineFacts.

(** Concrete runs of the engine. *)

Module EngineRuns.
Import Py Frames Engine EngineFacts Samples.

(** C1 fails as stated: the module raises on the first frame; a second
    frame is on offer (no shutdown, camera open, read successful), yet
    the run has ended and the second frame is never captured. *)
Lemma stage_error_next_frame_not_captured :
  let ticks := [capture_tick px 0; capture_tick px 1] in
  forallb good_tick ticks = true /\
  run [raising] ticks st0 =
    ([EvCapture 0 0%nat; EvInvoke 0 0%nat; EvLogError "boom"; EvCleanup],
     Exited {| frames := [px; px];
               payloads := [{| frame := 0%nat; original_frame := 1%nat;
                               timestamp := 0; frame_number := 0; meta := ∅ |}];
               ext := tt |}) /\
  length (filter (fun e => is_capture e = true) (run [raising] ticks st0).1) = 1%nat /\
  length (filter (fun e => is_capture e = true) (run [raising] ticks st0).1)
    <> length ticks.
Proof.
  cbv zeta. split; [reflexivity|]. split; [reflexivity|]. split; [reflexivity|].
  vm_compute. discriminate.
Qed.

(** A module that returns [None] ends the frame, not the run: the module
    after it is not called and the next frame is captured with the next
    number. *)
Example abort_goes_on_with_next_frame :
  (run [passing; dropping; passing] [capture_tick px 0; capture_tick px 1] st0).1 =
    [EvCapture 0 0%nat; EvInvoke 0 0%nat; EvInvoke 1 0%nat;
     EvCapture 1 1%nat; EvInvoke 0 1%nat; EvInvoke 1 1%nat].
Proof. reflexivity. Qed.

Lemma stage_error_ends_run_witness :
  run [passing; raising; passing] ([] ++ capture_tick px 0 :: [capture_tick px 1]) st0 =
    ([] ++ EvCapture 0 0%nat ::
       [EvInvoke 0 0%nat] ++ [EvInvoke 1 0%nat; EvLogError "boom"; EvCleanup],
     Exited {| frames := [px; px];
               payloads := [{| frame := 0%nat; original_frame := 1%nat;
                               timestamp := 0; frame_number := 0; meta := ∅ |}];
               ext := tt |}).
Proof.
  apply (stage_error_ends_run [passing; raising; passing] [] st0 [] st0 px 0
           [passing] raising [passing] [EvInvoke 0 0%nat] 0%nat
           {| frames := [px; px];
              payloads := [{| frame := 0%nat; original_frame := 1%nat;
                              timestamp := 0; frame_number := 0; meta := ∅ |}];
              ext := tt |}
           "boom" _ [capture_tick px 1]);
    reflexivity.
Defined.

End EngineRuns.

(** ** Rational comparisons *)

Module NumFacts.
Import Num.

Lemma Qltb_lt x y : Qltb x y = true <-> (x < y)%Q.
Proof.
  unfold Qltb. rewrite Qlt_alt.
  destruct (x ?= y)%Q; split; congruence.
Qed.

Lemma Qltb_ge x y : Qltb x y = false <-> (y <= x)%Q.
Proof.
  rewrite <- not_true_iff_false, Qltb_lt. split.
  - apply Qnot_lt_le.
  - apply Qle_not_lt.
Qed.

Lemma Qgeb_le x y : Qgeb x y = true <-> (y <= x)%Q.
Proof. unfold Qgeb. rewrite negb_true_iff. apply Qltb_ge. Qed.

(** Python's [max] computes the maximum. *)
Lemma py_max_Qmax a b : (py_max a b == Qmax a b)%Q.
Proof.
  unfold py_max. destruct (Qltb a b) eqn:H.
  - apply Qltb_lt in H. symmetry. apply Q.max_r. by apply Qlt_le_weak.
  - apply Qltb_ge in H. symmetry. by apply Q.max_l.
Qed.

End NumFacts.

(** ** The frame source *)

Module CameraFacts.
Import Frames Num NumFacts Camera.

Section WithCv.
Context (cv : Health.Cv) (th : Health.Thresholds).

Lemma threshold_Qmax f :
  (threshold f == Qmax 5 (10 * (1 / Qmax 1 f)))%Q.
Proof.
  unfold threshold. rewrite py_max_Qmax.
  apply Q.max_compat; [reflexivity|].
  rewrite (py_max_Qmax 1 f). apply Qmult_comm.
Qed.

Lemma threshold_fast f : (1 <= f)%Q -> (threshold f == stated_threshold f)%Q.
Proof.
  intros H. rewrite threshold_Qmax. unfold stated_threshold.
  by rewrite (Q.max_r 1 f H).
Qed.

Lemma threshold_slow f : (f < 1)%Q -> (threshold f == 10)%Q.
Proof.
  intros H. rewrite threshold_Qmax.
  rewrite (Q.max_l 1 f) by (by apply Qlt_le_weak).
  reflexivity.
Qed.

Lemma health_tick_connected now c :
  is_connected (health_tick cv th now c) =
    Qltb (now - last_frame_time c) (threshold (fps c)).
Proof.
  unfold health_tick.
  destruct (last_frame (set_connected _ c)) as [r|]; [|by simpl].
  destruct (np_copy _ r) as [[r' h']|]; [|by simpl].
  cbn [is_connected set_heap set_connected set_health].
  destruct (Qltb _ _); [|done].
  by destruct (Health.validate th cv _).
Qed.

(** C4, as the code has it.  A health tick classifies the source as
    connected exactly when the freshness, [now] minus the time of the
    last frame, is below [max(5, 10 × 1/max(1, fps))] seconds.  For a
    frame rate of at least one this is the threshold [max(5, 10 × 1/fps)];
    for a frame rate below one the threshold is ten seconds. *)
Theorem health_tick_freshness now c :
  let fresh := (now - last_frame_time c)%Q in
  let c' := health_tick cv th now c in
  (is_connected c' = true <-> (fresh < Qmax 5 (10 * (1 / Qmax 1 (fps c))))%Q) /\
  ((1 <= fps c)%Q ->
     (is_connected c' = true <-> (fresh < stated_threshold (fps c))%Q)) /\
  ((fps c < 1)%Q -> (is_connected c' = true <-> (fresh < 10)%Q)).
Proof.
  intros fresh c'. subst c'. rewrite health_tick_connected. fold fresh.
  rewrite Qltb_lt. split; [|split].
  - by rewrite threshold_Qmax.
  - intros H. by rewrite (threshold_fast _ H).
  - intros H. by rewrite (threshold_slow _ H).
Qed.

Lemma np_copy_wf (h : heap) r :
  (r < length h)%nat ->
  exists a, h !! r = Some a /\ np_copy h r = Some (length h, h ++ [a]).
Proof.
  intros Hr. destruct (lookup_lt_is_Some_2 h r Hr) as [a Ha].
  exists a. split; [done|]. unfold np_copy, alloc. by rewrite Ha.
Qed.

(** C10.  After a health tick: a source classified as not connected is
    not corrupted and its issues are ["Disconnected"], and the same holds
    when no frame is buffered; the corrupted flag is set only for a
    source that is classified as connected and has a buffered frame, and
    then the flag and the issues are those of the validator on a copy of
    that frame. *)
Theorem health_tick_invariant now c :
  wf c ->
  let c' := health_tick cv th now c in
  (is_connected c' = false ->
     is_corrupted c' = false /\ health_issues c' = ["Disconnected"]) /\
  (last_frame c = None ->
     is_corrupted c' = false /\ health_issues c' = ["Disconnected"]) /\
  (is_corrupted c' = true ->
     is_connected c' = true /\ exists r, last_frame c = Some r) /\
  (forall r, is_connected c' = true -> last_frame c = Some r ->
     exists a, heap_ c !! r = Some a /\
       is_corrupted c' = negb (Health.validate th cv (Some a)).1 /\
       health_issues c' = (Health.validate th cv (Some a)).2 /\
       last_frame c' = Some r /\ heap_ c' !! r = Some a).
Proof.
  intros Hwf c'. pose proof (health_tick_connected now c) as Hconn.
  fold c' in Hconn. subst c'. revert Hconn. unfold health_tick.
  cbn [last_frame set_connected set_health heap_].
  unfold wf in Hwf.
  destruct (last_frame c) as [r|] eqn:Hlast.
  - destruct (np_copy_wf (heap_ c) r Hwf) as (a & Ha & Hcopy).
    rewrite Hcopy. cbn [is_connected set_heap set_health set_connected heap_].
    destruct (Qltb (now - last_frame_time c) (threshold (fps c))) eqn:Hlt.
    + rewrite lookup_app_r by lia. rewrite Nat.sub_diag. cbn [lookup list_lookup].
      destruct (Health.validate th cv (Some a)) as [ok reasons] eqn:Hv.
      cbn [is_connected is_corrupted health_issues last_frame heap_ set_health set_heap set_connected fst snd].
      intros _. split; [intros; congruence|]. split; [intros; congruence|].
      split; [intros; split; [done|by exists r]|].
      intros r0 _ [= <-]. exists a. rewrite Hv. cbn [fst snd].
      split; [done|]. split; [done|]. split; [done|]. split; [done|].
      by rewrite lookup_app_l by lia.
    + cbn [is_connected is_corrupted health_issues last_frame heap_ set_health set_heap set_connected].
      intros _. split; [done|]. split; [done|]. split; intros; congruence.
  - cbn [is_connected is_corrupted health_issues last_frame heap_ set_health set_heap set_connected].
    intros _. split; [done|]. split; [done|]. split; intros; congruence.
Qed.

(** C6.  [read] returns [(False, None)] and leaves the camera as it is
    when the source is closed or no frame has been buffered.  Otherwise it
    returns [True] and a new array with the contents of the buffered
    frame: its reference is none of the store before the call, so it is
    not the buffer slot, and a write through it leaves the buffered frame
    and the result of the next [read] unchanged. *)
Theorem read_copy c :
  wf c ->
  (is_open c = false -> read c = (false, None, c)) /\
  (last_frame c = None -> read c = (false, None, c)) /\
  (forall r, is_open c = true -> last_frame c = Some r ->
     exists a,
       heap_ c !! r = Some a /\
       let r' := length (heap_ c) in
       let c' := set_heap (heap_ c ++ [a]) c in
       read c = (true, Some r', c') /\
       r' <> r /\
       heap_ c !! r' = None /\
       heap_ c' !! r' = Some a /\
       heap_ c' !! r = Some a /\
       last_frame c' = Some r /\
       forall b,
         let c'' := set_heap (np_write (heap_ c') r' b) c' in
         heap_ c'' !! r = Some a /\
         exists r2 c3, read c'' = (true, Some r2, c3) /\ heap_ c3 !! r2 = Some a).
Proof.
  intros Hwf. unfold read. split; [|split].
  - by intros ->.
  - intros ->. by destruct (negb (is_open c)).
  - intros r Hopen Hlast. rewrite Hopen, Hlast. cbn [negb].
    unfold wf in Hwf. rewrite Hlast in Hwf.
    destruct (np_copy_wf (heap_ c) r Hwf) as (a & Ha & Hcopy).
    exists a. split; [done|]. cbv zeta. rewrite Hcopy.
    split; [done|]. split; [lia|].
    split; [by apply lookup_ge_None_2|].
    cbn [heap_ set_heap last_frame is_open].
    split; [by rewrite lookup_app_r, Nat.sub_diag by lia|].
    split; [by rewrite lookup_app_l by lia|].
    split; [done|].
    intros b. unfold np_write.
    assert (Hr : <[length (heap_ c) := b]> (heap_ c ++ [a]) !! r = Some a).
    { rewrite list_lookup_insert_ne by lia. by rewrite lookup_app_l by lia. }
    cbv zeta. cbn [heap_ set_heap is_open last_frame].
    split; [done|]. rewrite Hopen, Hlast. cbn [negb].
    unfold np_copy. rewrite Hr. unfold alloc.
    eexists _, _. split; [done|]. cbn [heap_ set_heap].
    rewrite lookup_app_r by lia. by rewrite Nat.sub_diag.
Qed.

(** *** The reader loop *)

Lemma update_frame_buffer_fields a t c :
  let c' := _update_frame_buffer cv a t c in
  reconnect_interval c' = reconnect_interval c /\
  capture c' = capture c /\ is_open c' = is_open c /\ wf c'.
Proof.
  unfold _update_frame_buffer, _apply_rotation, alloc, wf.
  destruct ((rotation c =? 90) || (rotation c =? 180) || (rotation c =? 270));
    cbn; rewrite ?length_app; cbn; repeat split; lia.
Qed.

Lemma connect_fields o t c :
  let c' := (connect cv o t c).2 in
  reconnect_interval c' = reconnect_interval c /\
  capture c' = Some (conn_handle o) /\
  (wf c -> wf c').
Proof.
  unfold connect.
  destruct (conn_opened o); [destruct (conn_warmup o) as [a| |msg]|]; cbn [snd];
    try (by cbn).
  unfold _extract_metadata.
  destruct (update_frame_buffer_fields a t (set_open true (set_capture (Some (conn_handle o)) c)))
    as (Hi & Hc & _ & Hw).
  cbn [reconnect_interval capture set_fps wf last_frame heap_] in *.
  unfold wf in *. cbn [last_frame heap_ set_fps]. by rewrite Hi, Hc.
Qed.

Ltac iter_cases e c n :=
  unfold reader_iter;
  destruct (is_open c) eqn:Hopen; cbn [negb];
  [ destruct (r_read e) as [a| |msg] eqn:Hread;
    [ | destruct (10 <? n + 1) eqn:Hten | destruct (10 <? n + 1) eqn:Hten ]
  | unfold _reconnect;
    destruct (connect cv (r_connect e) (r_now e) c) as [[cevs res] c'] eqn:Hconn ].

(** A turn on a closed source releases the handle, waits for
    [reconnect_interval] seconds and calls [connect]; the counter stays. *)
Lemma reader_iter_closed e c n :
  is_open c = false ->
  exists tail,
    reader_iter cv e c n =
      (match capture c with Some h => [EvRelease h] | None => [] end ++
       EvSleep (reconnect_interval c) :: EvConnect "auto" :: tail,
       (connect cv (r_connect e) (r_now e) c).2, n).
Proof.
  intros Hc. unfold reader_iter, _reconnect. rewrite Hc. cbn [negb].
  destruct (connect cv (r_connect e) (r_now e) c) as [[cevs res] c'].
  eexists. cbn [snd]. reflexivity.
Qed.

Lemma reader_iter_keeps e c n :
  let c' := (reader_iter cv e c n).1.2 in
  reconnect_interval c' = reconnect_interval c /\
  (opened_has_capture c -> opened_has_capture c') /\
  (wf c -> wf c').
Proof.
  iter_cases e c n; cbn [fst snd].
  - destruct (update_frame_buffer_fields a (r_now e) c) as (Hi & Hc & Ho & Hw).
    split; [done|]. split; [|done].
    unfold opened_has_capture. by rewrite Hc, Ho.
  - split; [done|]. split; [by unfold opened_has_capture|done].
  - done.
  - split; [done|]. split; [by unfold opened_has_capture|done].
  - done.
  - destruct (connect_fields (r_connect e) (r_now e) c) as (Hi & Hc & Hw).
    rewrite Hconn in Hi, Hc, Hw. cbn [snd] in Hi, Hc, Hw.
    split; [done|]. split; [|done].
    unfold opened_has_capture. rewrite Hc. by eauto.
Qed.

Lemma reader_loop_keeps envs : forall c n,
  let c' := (reader_loop cv envs c n).1.2 in
  reconnect_interval c' = reconnect_interval c /\
  (opened_has_capture c -> opened_has_capture c') /\
  (wf c -> wf c').
Proof.
  induction envs as [|e rest IH]; intros c n; cbn [reader_loop].
  - done.
  - destruct (reader_iter_keeps e c n) as (Hi & Ho & Hw).
    destruct (reader_iter cv e c n) as [[evs c1] n1]. cbn [fst snd] in Hi, Ho, Hw.
    destruct (IH c1 n1) as (Hi' & Ho' & Hw').
    destruct (reader_loop cv rest c1 n1) as [[evs' c2] n2]. cbn [fst snd] in *.
    split; [congruence|]. split; auto.
Qed.

(** The two invariants hold of a new camera, and [read] and the health
    tick keep the buffer slot within the store. *)
Lemma init_invariants is_file rot interval :
  wf (init is_file rot interval) /\ opened_has_capture (init is_file rot interval).
Proof. split; [exact I|]. intros H. discriminate H. Qed.

Lemma read_wf c : wf c -> wf (read c).2.
Proof.
  intros Hwf. unfold read. destruct (negb (is_open c)); [done|].
  destruct (last_frame c) as [r|] eqn:Hl; [|done].
  unfold wf in Hwf. rewrite Hl in Hwf.
  destruct (np_copy_wf (heap_ c) r Hwf) as (a & _ & ->). cbn [snd].
  unfold wf. simpl. rewrite Hl, length_app. lia.
Qed.

Lemma health_tick_wf now c : wf c -> wf (health_tick cv th now c).
Proof.
  intros Hwf. unfold health_tick.
  cbn [last_frame set_connected set_health heap_].
  destruct (last_frame c) as [r|] eqn:Hl.
  - unfold wf in Hwf. rewrite Hl in Hwf.
    destruct (np_copy_wf (heap_ c) r Hwf) as (a & _ & ->).
    cbn [is_connected set_heap set_health set_connected heap_].
    destruct (Qltb _ _).
    + destruct (Health.validate th cv _).
      unfold wf. simpl. rewrite Hl, length_app. lia.
    + unfold wf. simpl. rewrite Hl, length_app. lia.
  - unfold wf. simpl. by rewrite Hl.
Qed.

(** What a turn of the reader does after any turns of the loop, by the
    counter of the loop (an exception and an unsuccessful read count
    alike): a read that delivers a frame sets the counter to zero; a read
    that fails adds one, and when that brings the counter above ten it
    marks the source closed, so that the next turn releases the handle,
    waits [reconnect_interval] seconds (five unless configured) and calls
    [connect]; so does every turn that finds the source closed, and such a
    turn leaves the counter as it is. *)
Lemma reader_turn envs c0 evs1 c1 n0 n1 e :
  opened_has_capture c0 ->
  reader_loop cv envs c0 n0 = (evs1, c1, n1) ->
  (is_open c1 = true ->
     match r_read e with
     | ReadFrame a =>
         (reader_iter cv e c1 n1).2 = 0 /\
         is_open (reader_iter cv e c1 n1).1.2 = true
     | _ =>
         let c2 := (reader_iter cv e c1 n1).1.2 in
         let n2 := (reader_iter cv e c1 n1).2 in
         n2 = n1 + 1 /\
         (n2 <= 10 -> c2 = c1) /\
         (10 < n2 ->
            is_open c2 = false /\
            exists h, capture c2 = Some h /\
              forall e', exists tail,
                reader_iter cv e' c2 n2 =
                  (EvRelease h :: EvSleep (reconnect_interval c0) ::
                     EvConnect "auto" :: tail,
                   (connect cv (r_connect e') (r_now e') c2).2, n2))
     end) /\
  (is_open c1 = false ->
     exists tail,
       reader_iter cv e c1 n1 =
         (match capture c1 with Some h => [EvRelease h] | None => [] end ++
          EvSleep (reconnect_interval c0) :: EvConnect "auto" :: tail,
          (connect cv (r_connect e) (r_now e) c1).2, n1)) /\
  (forall is_file rot, reconnect_interval (init is_file rot None) = 5%Q).
Proof.
  intros Hinv Hloop.
  destruct (reader_loop_keeps envs c0 n0) as (Hint & Hcap & _).
  rewrite Hloop in Hint, Hcap. cbn [fst snd] in Hint, Hcap.
  specialize (Hcap Hinv).
  split; [|split; [|done]].
  - intros Hopen. destruct (Hcap Hopen) as [h Hh].
    assert (Hfail : forall log,
      let r := (if 10 <? n1 + 1
                then (EvRead false :: log ++ [EvLog "Connection lost (Read Errors)."],
                      set_open false c1, n1 + 1)
                else (EvRead false :: log ++ [pace c1], c1, n1 + 1)) in
      r.2 = n1 + 1 /\ (r.2 <= 10 -> r.1.2 = c1) /\
      (10 < r.2 -> is_open r.1.2 = false /\
         exists h, capture r.1.2 = Some h /\
           forall e', exists tail,
             reader_iter cv e' r.1.2 r.2 =
               (EvRelease h :: EvSleep (reconnect_interval c0) ::
                  EvConnect "auto" :: tail,
                (connect cv (r_connect e') (r_now e') r.1.2).2, r.2))).
    { intros log. destruct (10 <? n1 + 1) eqn:Hten; cbn [fst snd].
      - apply Z.ltb_lt in Hten. split; [done|]. split; [lia|].
        intros _. split; [done|]. exists h. split; [done|].
        intros e'.
        destruct (reader_iter_closed e' (set_open false c1) (n1 + 1) eq_refl)
          as [tail Ht].
        exists tail. rewrite Ht. cbn [capture set_open reconnect_interval].
        by rewrite Hh, Hint.
      - apply Z.ltb_ge in Hten. split; [done|]. split; [done|]. lia. }
    unfold reader_iter. rewrite Hopen. cbn [negb].
    destruct (r_read e) as [a| |msg].
    + cbn [fst snd]. split; [done|].
      destruct (update_frame_buffer_fields a (r_now e) c1) as (_ & _ & Ho & _).
      by rewrite Ho.
    + apply (Hfail []).
    + apply (Hfail [EvLog ("Read exception: " +:+ msg)]).
  - intros Hclosed. destruct (reader_iter_closed e c1 n1 Hclosed) as [tail Ht].
    exists tail. by rewrite Ht, Hint.
Qed.

End WithCv.

End CameraFacts.

(** Concrete runs of the frame source. *)

Module CameraRuns.
Import Frames Num Camera CameraFacts Samples.

(** C4 fails as stated: at half a frame per second and with the last
    frame fifteen seconds old, the freshness is below the stated
    threshold [max(5, 10 × 1/fps)], which is twenty seconds, yet the tick
    classifies the source as not connected. *)
Lemma freshness_threshold_differs :
  (0 <= fps slow_cam)%Q /\
  stated_threshold (fps slow_cam) = 20%Q /\
  (15 - last_frame_time slow_cam < stated_threshold (fps slow_cam))%Q /\
  is_connected (health_tick cv0 th0 15 slow_cam) = false.
Proof.
  split; [by vm_compute|]. split; [reflexivity|].
  split; [by vm_compute|]. reflexivity.
Qed.

Lemma open_cam_wf : wf open_cam.
Proof. unfold wf. cbn. lia. Defined.

Lemma read_copy_witness :
  read open_cam = (true, Some 1%nat, set_heap [px; px] open_cam) /\
  heap_ (set_heap (np_write [px; px] 1%nat (Gray [[0]])) open_cam) !! 0%nat = Some px.
Proof.
  destruct (read_copy open_cam open_cam_wf) as (_ & _ & H).
  destruct (H 0%nat eq_refl eq_refl) as (a & Ha & Hr & _ & _ & _ & _ & _ & Hw).
  injection Ha as <-. split; [exact Hr|].
  exact (proj1 (Hw (Gray [[0]]))).
Defined.

Lemma health_tick_invariant_witness :
  is_corrupted (health_tick cv0 th0 100 open_cam) = false /\
  health_issues (health_tick cv0 th0 100 open_cam) = ["Disconnected"].
Proof.
  exact (proj1 (health_tick_invariant cv0 th0 100 open_cam open_cam_wf) eq_refl).
Defined.

Lemma open_cam_capture : opened_has_capture open_cam.
Proof. intros _. by exists 7%nat. Defined.

(** C3, the failing input.  On an open source eleven reads of the loop
    fail, which closes the source; the next turn reconnects, and the
    warm-up read of [connect] delivers a frame.  That read is a successful
    read, and no read has failed since, yet the counter of the loop still
    stands at eleven: the one failed read of the turn after brings it to
    twelve and closes the source again, although only one read has failed
    in a row. *)
Theorem counter_survives_reconnect :
  let r1 := reader_loop cv0 (replicate 11 fail_env ++ [reconnect_env]) open_cam 0 in
  let r2 := reader_iter cv0 fail_env r1.1.2 r1.2 in
  reads r1.1.1 = replicate 11 false ++ [true] /\
  failed_in_a_row r1.1.1 = 0 /\
  is_open r1.1.2 = true /\
  r1.2 = 11 /\
  reads r2.1.1 = [false] /\
  failed_in_a_row (r1.1.1 ++ r2.1.1) = 1 /\
  r2.2 = 12 /\
  is_open r2.1.2 = false.
Proof. cbv zeta. repeat split; reflexivity. Qed.

(** The same eleven failures without the reconnection in between close
    the source at the eleventh, not before. *)
Example eleven_failures_close :
  is_open (reader_loop cv0 (replicate 10 fail_env) open_cam 0).1.2 = true /\
  failed_in_a_row (reader_loop cv0 (replicate 11 fail_env) open_cam 0).1.1 = 11 /\
  is_open (reader_loop cv0 (replicate 11 fail_env) open_cam 0).1.2 = false.
Proof. repeat split; reflexivity. Qed.

End CameraRuns.

(** ** The frame health validator *)

(** Counting pixels. *)

Module HealthLemmas.
Import Frames Num NumFacts Health.

Lemma count_if_cons f v l :
  count_if f (v :: l) = (if f v then 1 else 0) + count_if f l.
Proof.
  unfold count_if. destruct (f v) eqn:Hf.
  - rewrite filter_cons_True by done. cbn [length]. lia.
  - rewrite filter_cons_False by (rewrite Hf; done). lia.
Qed.

Lemma count_if_bounds f l : 0 <= count_if f l <= Z.of_nat (length l).
Proof.
  induction l as [|v l IH]; [done|].
  rewrite count_if_cons. cbn [length]. destruct (f v); lia.
Qed.

Lemma count_if_all f l :
  Forall (fun v => f v = true) l -> count_if f l = Z.of_nat (length l).
Proof.
  induction 1 as [|v l Hv _ IH]; [done|].
  rewrite count_if_cons, Hv, IH. cbn [length]. lia.
Qed.

Lemma Zsum_app l1 l2 : Zsum (l1 ++ l2) = Zsum l1 + Zsum l2.
Proof. unfold Zsum. induction l1 as [|x l1 IH]; cbn [app fold_right]; lia. Qed.

(** Among the first [n] bins exactly one counts a value of the range. *)
Lemma one_bin v n :
  Zsum (map (fun i => if Z.of_nat i =? v then 1 else 0) (seq 0 n)) =
    if (0 <=? v) && (v <? Z.of_nat n) then 1 else 0.
Proof.
  induction n as [|n IH].
  - cbn [seq map Zsum fold_right].
    destruct (0 <=? v) eqn:H0; destruct (v <? Z.of_nat 0) eqn:H1; cbn [andb];
      try done.
    apply Z.leb_le in H0. apply Z.ltb_lt in H1. lia.
  - rewrite seq_S, map_app, Zsum_app, IH. cbn [map Zsum fold_right Nat.add].
    destruct (Z.of_nat n =? v) eqn:He;
      destruct (0 <=? v) eqn:H0; destruct (v <? Z.of_nat n) eqn:H1;
      destruct (v <? Z.of_nat (S n)) eqn:H2; cbn [andb]; try done;
      rewrite ?Z.eqb_eq, ?Z.eqb_neq, ?Z.leb_le, ?Z.leb_gt, ?Z.ltb_lt, ?Z.ltb_ge in *;
      lia.
Qed.

Lemma hist_sum px n :
  Zsum (map (fun i => count_if (Z.eqb (Z.of_nat i)) px) (seq 0 n)) =
    count_if (fun v => (0 <=? v) && (v <? Z.of_nat n)) px.
Proof.
  induction px as [|v px IH].
  - cbn. induction (seq 0 n) as [|i l IHl]; [done|]. cbn. unfold Zsum in IHl.
    by rewrite IHl.
  - rewrite count_if_cons, <- IH, <- one_bin. clear IH.
    induction (seq 0 n) as [|i l IHl]; [done|].
    cbn [map Zsum fold_right]. rewrite count_if_cons.
    unfold Zsum in IHl. lia.
Qed.

End HealthLemmas.

Module HealthFacts.
Import Frames Num NumFacts Health HealthSpec HealthLemmas.

(** *** The measures the code computes are those of the specification *)


















Lemma row_at_nth g (y : nat) : row_at g (Z.of_nat y) = nth y g [].
Proof. unfold row_at. by rewrite Nat2Z.id, nth_lookup. Qed.

Lemma pixel_at_nth row (x : nat) : pixel_at row (Z.of_nat x) = nth x row 0.
Proof. unfold pixel_at. by rewrite Nat2Z.id, nth_lookup. Qed.




(** *** [validate] *)



End HealthFacts.

(** ** The metadata sink *)

Module MetadataFacts.
Import Py Frames Num NumFacts Metadata.

(** C9.  [process] never returns [None].  It raises only when the truth
    test of the [track_ids_info] entry raises (an array of several
    elements); otherwise it returns the payload object it was given.  In
    every case the payload objects and the arrays are left as they were.
    An item is put on the queue exactly when the entry is present and
    true (for a track map: not empty), and then it is put at the end;
    otherwise the handler, and with it the whole state, is unchanged. *)
Theorem process_returns_payload (w : Engine.World Handler) (p : ref) (pl : Engine.Payload) :
  Engine.payloads w !! p = Some pl ->
  let r := process w p in
  r.1 <> Engine.ReturnedNone /\
  Engine.frames r.2 = Engine.frames w /\
  Engine.payloads r.2 = Engine.payloads w /\
  Engine.payloads r.2 !! p = Some pl /\
  ((exists msg, r.1 = Engine.Raised msg) <-> py_truthy (track_info pl) = None) /\
  (py_truthy (track_info pl) <> None -> r.1 = Engine.Returned p) /\
  (forall q, r.1 = Engine.Returned q -> q = p) /\
  (data_queue (Engine.ext r.2) <> data_queue (Engine.ext w) ->
     py_truthy (track_info pl) = Some true /\
     exists v, Engine.meta pl !! "track_ids_info" = Some v /\ py_truthy v = Some true) /\
  (py_truthy (track_info pl) = Some true ->
     data_queue (Engine.ext r.2) = data_queue (Engine.ext w) ++ [make_item pl] /\
     batch_size (Engine.ext r.2) = batch_size (Engine.ext w) /\
     flush_interval (Engine.ext r.2) = flush_interval (Engine.ext w)) /\
  (py_truthy (track_info pl) <> Some true -> r.2 = w).
Proof.
  intros Hp r. subst r. unfold process, process_payload. rewrite Hp.
  destruct w as [fr pls h]. cbn [Engine.frames Engine.payloads Engine.ext] in *.
  assert (Hpresent : py_truthy (track_info pl) = Some true ->
            exists v, Engine.meta pl !! "track_ids_info" = Some v /\
                      py_truthy v = Some true).
  { unfold track_info.
    destruct (Engine.meta pl !! "track_ids_info") as [v|]; simpl; [by eauto|done]. }
  destruct (py_truthy (track_info pl)) as [[|]|] eqn:Ht;
    cbn [fst snd Engine.frames Engine.payloads Engine.ext];
    repeat split; try done; try congruence;
    try (intros [msg Hm]; discriminate);
    try (intros Hne; by destruct Hne);
    try (intros _; by apply Hpresent);
    try (by apply Hpresent);
    try (intros _; by eexists).
Qed.

Section Worker.
Context (ext : Externals) (rejects : Doc -> bool).

Lemma inserts_app (a b : list Event) : inserts (a ++ b) = inserts a ++ inserts b.
Proof. unfold inserts. apply flat_map_app. Qed.

(** The documents an item taken off the queue adds to the buffer. *)
Lemma drain_takes_head h buf :
  let d := drain ext rejects h buf in
  head d.1.1 = Some (EvGet 1) /\
  inserts d.1.1 = [] /\
  data_queue d.1.2 = tail (data_queue h) /\
  batch_size d.1.2 = batch_size h /\
  flush_interval d.1.2 = flush_interval h /\
  d.2 = buf ++
        match head (data_queue h) with
        | Some item =>
            match (_format_metadata ext rejects h item).1 with
            | Some doc => [doc]
            | None => []
            end
        | None => []
        end.
Proof.
  cbv zeta. unfold drain, _format_metadata.
  destruct (data_queue h) as [|item rest] eqn:Hq; cbn [head tail fst snd].
  - rewrite Hq, app_nil_r. done.
  - destruct (build_doc ext rejects h item); cbn [fst snd data_queue set_queue];
      rewrite ?app_nil_r; done.
Qed.

Lemma drain_events h buf :
  head (drain ext rejects h buf).1.1 = Some (EvGet 1) /\
  inserts (drain ext rejects h buf).1.1 = [].
Proof. destruct (drain_takes_head h buf) as (H1 & H2 & _). by split. Qed.

Lemma should_flush_iff h buf last now :
  should_flush h buf last now = true <->
  buf <> [] /\
  (batch_size h <= Z.of_nat (length buf) \/ (flush_interval h <= now - last)%Q).
Proof.
  unfold should_flush. destruct buf as [|d buf'].
  - split; [done|]. by intros [? _].
  - rewrite orb_true_iff, Z.leb_le, Qgeb_le. split.
    + intros H. split; [done|exact H].
    + by intros [_ H].
Qed.

Lemma worker_iter_queue e h wk :
  data_queue (worker_iter ext rejects e h wk).1.2 = tail (data_queue h).
Proof.
  unfold worker_iter. destruct (drain_takes_head h (buffer wk)) as (_ & _ & Hq & _).
  destruct (drain ext rejects h (buffer wk)) as [[evs1 h1] buf1]. cbn [fst snd] in Hq.
  by destruct (should_flush h buf1 (last_flush_time wk) (t_check e)).
Qed.

(** While nothing arrives, every turn takes one item off the queue, the
    oldest first. *)
Lemma worker_loop_drains turns : forall h wk,
  Forall (fun t => t.1 = []) turns ->
  data_queue (worker_loop ext rejects turns h wk).1.2 =
    drop (length turns) (data_queue h).
Proof.
  induction turns as [|[arrived e] rest IH]; intros h wk Hall; cbn [worker_loop].
  - by rewrite drop_0.
  - apply Forall_cons in Hall as [Ha Hrest]. cbn [fst] in Ha. subst arrived.
    pose proof (worker_iter_queue e (set_queue (data_queue h ++ []) h) wk) as Hq.
    destruct (worker_iter ext rejects e (set_queue (data_queue h ++ []) h) wk)
      as [[evs h1] wk1]. cbn [fst snd data_queue set_queue] in Hq.
    specialize (IH h1 wk1 Hrest).
    destruct (worker_loop ext rejects rest h1 wk1) as [[evs' h2] wk2].
    cbn [fst snd length] in *. rewrite IH, Hq, app_nil_r.
    destruct (data_queue h) as [|it q]; cbn [tail]; [by rewrite !drop_nil|done].
Qed.

(** C7.  A turn of the worker polls the queue once, with a timeout of
    one second, and takes the oldest item off it, if there is one; the
    document made of the item, if there is one, goes to the end of the
    buffer.  Turn after turn the queue is drained: while nothing arrives,
    [k] turns take its first [k] items.  The turn flushes exactly when,
    after the poll, the buffer is not empty and either holds at least
    [batch_size] documents or [flush_interval] seconds have passed since
    the last flush.  A flush is one bulk insert of the whole buffer; it
    empties the buffer and restarts the interval, whether the insert
    succeeds (the documents are stored) or fails (an error is logged, the
    documents are stored nowhere).  A turn that does not flush inserts
    nothing and keeps the buffer.  In all cases the loop goes on with the
    next turn.  The defaults are 100 documents and 5 seconds. *)
Theorem worker_flush_rule (e : WorkerEnv) (h : Handler) (wk : Worker) :
  let r := worker_iter ext rejects e h wk in
  let buf1 :=
    buffer wk ++
    match head (data_queue h) with
    | Some item =>
        match (_format_metadata ext rejects h item).1 with
        | Some doc => [doc]
        | None => []
        end
    | None => []
    end in
  let due :=
    buf1 <> [] /\
    (batch_size h <= Z.of_nat (length buf1) \/
     (flush_interval h <= t_check e - last_flush_time wk)%Q) in
  head r.1.1 = Some (EvGet 1) /\
  length (filter (fun ev => is_get ev = true) r.1.1) = 1%nat /\
  data_queue r.1.2 = tail (data_queue h) /\
  batch_size r.1.2 = batch_size h /\
  flush_interval r.1.2 = flush_interval h /\
  (forall turns wk',
     Forall (fun t => t.1 = []) turns ->
     data_queue (worker_loop ext rejects turns h wk').1.2 =
       drop (length turns) (data_queue h)) /\
  (due ->
     inserts r.1.1 = [buf1] /\
     buffer r.2 = [] /\
     last_flush_time r.2 = t_flushed e /\
     (insert_ok e = true -> stored r.2 = stored wk ++ buf1) /\
     (insert_ok e = false ->
        stored r.2 = stored wk /\
        last r.1.1 = Some (EvError "Database batch insert error"))) /\
  (~ due ->
     inserts r.1.1 = [] /\
     buffer r.2 = buf1 /\
     last_flush_time r.2 = last_flush_time wk /\
     stored r.2 = stored wk) /\
  (forall arrived rest,
     worker_loop ext rejects ((arrived, e) :: rest) h wk =
       let r' := worker_iter ext rejects e (set_queue (data_queue h ++ arrived) h) wk in
       let l := worker_loop ext rejects rest r'.1.2 r'.2 in
       (r'.1.1 ++ l.1.1, l.1.2, l.2)) /\
  (forall cfg,
     batch_size (init cfg) = default 100 (cfg_buffer_size cfg) /\
     flush_interval (init cfg) = default 5%Q (cfg_flush_interval cfg)).
Proof.
  cbv zeta.
  assert (Hloop : forall arrived rest,
     worker_loop ext rejects ((arrived, e) :: rest) h wk =
       (let r' := worker_iter ext rejects e (set_queue (data_queue h ++ arrived) h) wk in
        let l := worker_loop ext rejects rest r'.1.2 r'.2 in
        (r'.1.1 ++ l.1.1, l.1.2, l.2))).
  { intros arrived rest. cbn [worker_loop].
    destruct (worker_iter ext rejects e (set_queue (data_queue h ++ arrived) h) wk)
      as [[a b] c].
    cbn [fst snd]. by destruct (worker_loop ext rejects rest b c) as [[a' b'] c']. }
  assert (Hgets : forall b,
    length (filter (fun ev => is_get ev = true)
              ((drain ext rejects h (buffer wk)).1.1 ++
               if b : bool
               then _flush_to_db (insert_ok e) (drain ext rejects h (buffer wk)).2
               else [])) = 1%nat).
  { intros b. unfold drain, _format_metadata, _flush_to_db.
    destruct (data_queue h) as [|item rest];
      [|destruct (build_doc ext rejects h item)];
      destruct b; destruct (insert_ok e); reflexivity. }
  unfold worker_iter.
  destruct (drain_takes_head h (buffer wk)) as (Hhead & Hins & Hq & Hb & Hf & Hbuf).
  destruct (drain ext rejects h (buffer wk)) as [[evs1 h1] buf1] eqn:Hd.
  cbn [fst snd] in *. rewrite <- Hbuf.
  pose proof (should_flush_iff h buf1 (last_flush_time wk) (t_check e)) as Hiff.
  destruct (should_flush h buf1 (last_flush_time wk) (t_check e)) eqn:Hsf;
    cbn [fst snd buffer last_flush_time stored].
  - split. { destruct evs1; [done|exact Hhead]. }
    split; [exact (Hgets true)|].
    split; [done|]. split; [done|]. split; [done|].
    split; [intros turns wk' Hall; by apply worker_loop_drains|].
    split; [|split; [|split; [exact Hloop|done]]].
    + intros _. rewrite inserts_app, Hins. unfold _flush_to_db.
      destruct (insert_ok e); cbn [inserts flat_map app];
        (split; [done|]); (split; [done|]); (split; [done|]);
        (split; [intros; congruence|]); intros Hok; try discriminate.
      split; [done|]. by rewrite last_app.
    + intros Hn. destruct Hn. by apply Hiff.
  - split; [exact Hhead|].
    split; [specialize (Hgets false); by rewrite app_nil_r in Hgets|].
    split; [done|]. split; [done|]. split; [done|].
    split; [intros turns wk' Hall; by apply worker_loop_drains|].
    split; [|split; [|split; [exact Hloop|done]]].
    + intros Hdue. apply Hiff in Hdue. discriminate.
    + done.
Qed.

End Worker.

Section Normalization.
Context (ext : Externals) (rejects : Doc -> bool).

Lemma format_track_normalized details t :
  format_track ext details = Some t ->
  exists d, details = VDict d /\ normalized ext d t.
Proof.
  unfold format_track. destruct details as [| | | | | | |d]; try discriminate.
  intros H. exists d. split; [done|].
  set (b0 := dict_get "bbox" (VList []) d) in *.
  assert (Hb : (if is_ndarray b0 then tolist b0 else b0) = tolist b0)
    by (destruct b0; reflexivity).
  rewrite Hb in H.
  destruct (py_iter (tolist b0)) as [xs|] eqn:Hxs; [|discriminate].
  cbn [mbind option_bind] in H.
  destruct (mapM (py_int ext) xs) as [ints|] eqn:Hints; [|discriminate].
  cbn [mbind option_bind] in H.
  destruct (py_float ext (dict_get "confidence" (VFloat (FNum 0)) d)) as [conf|] eqn:Hc;
    [|discriminate].
  cbn [mbind option_bind] in H.
  destruct (py_int ext (dict_get "label_id" (VInt 0) d)) as [lab|] eqn:Hl;
    [|discriminate].
  cbn [mbind option_bind] in H. injection H as <-.
  exists xs. fold b0. cbn [bbox confidence label instance_dict].
  split; [done|]. split; [by apply mapM_Some_1|]. done.
Qed.

Lemma format_tracks_spec raw : forall acc res,
  format_tracks ext raw acc = Some res ->
  (forall k t, res !! k = Some t ->
     acc !! k = Some t \/
     exists key d, (key, VDict d) ∈ raw /\ py_str_key key = k /\ normalized ext d t) /\
  (forall key details, (key, details) ∈ raw -> is_Some (res !! py_str_key key)) /\
  (forall k, is_Some (acc !! k) -> is_Some (res !! k)).
Proof.
  induction raw as [|[key details] rest IH]; intros acc res H; cbn [format_tracks] in H.
  - injection H as <-. split; [by auto|]. split; [|done].
    intros key details Hin. by apply elem_of_nil in Hin.
  - destruct (format_track ext details) as [t0|] eqn:Ht; [|discriminate].
    cbn [mbind option_bind] in H.
    destruct (format_track_normalized _ _ Ht) as (d & -> & Hn).
    destruct (IH _ _ H) as (IH1 & IH2 & IH3).
    split; [|split].
    + intros k t Hk. destruct (IH1 k t Hk) as [Hacc|(key' & d' & Hin & Hkey & Hn')].
      * destruct (decide (py_str_key key = k)) as [<-|Hne].
        -- rewrite lookup_insert_eq in Hacc. injection Hacc as <-.
           right. exists key, d. split; [by left|done].
        -- rewrite lookup_insert_ne in Hacc by done. by left.
      * right. exists key', d'. split; [by right|done].
    + intros key' details' Hin. apply elem_of_cons in Hin as [[= -> ->]|Hin].
      * apply IH3. rewrite lookup_insert_eq. by eexists.
      * by apply (IH2 key' details').
    + intros k Hk. apply IH3.
      destruct (decide (py_str_key key = k)) as [<-|Hne].
      * rewrite lookup_insert_eq. by eexists.
      * by rewrite lookup_insert_ne.
Qed.

(** The call [Metadata(...)] passes [device], which is no field of the
    document. *)
Lemma device_undefined : undefined_fields Metadata_fields doc_keywords = ["device"].
Proof. reflexivity. Qed.

(** So [_format_metadata] yields no document, whatever the record. *)
Lemma format_metadata_none h item :
  _format_metadata ext rejects h item = (None, [EvError "Metadata formatting error"]).
Proof.
  unfold _format_metadata, build_doc. rewrite device_undefined.
  destruct (i_track_ids_info item); try done.
  destruct (format_tracks ext d ∅); [|done]. cbn [mbind option_bind].
  by destruct (py_float ext (i_inference_time item)).
Qed.

End Normalization.

End MetadataFacts.

(** Concrete runs of the metadata sink. *)

Module MetadataRuns.
Import Py Frames Metadata MetadataExt MetadataFacts Samples.

Lemma process_returns_payload_witness :
  (process w1 0%nat).1 = Engine.Returned 0%nat /\
  data_queue (Engine.ext (process w1 0%nat).2) = [make_item pl1].
Proof.
  destruct (process_returns_payload w1 0%nat pl1 eq_refl)
    as (_ & _ & _ & _ & _ & Hret & _ & _ & Hput & _).
  split.
  - apply Hret. vm_compute. discriminate.
  - apply (proj1 (Hput eq_refl)).
Defined.

(** A worker that starts with an empty buffer never stores a document:
    no item gives one. *)
Lemma worker_loop_stores_nothing ext rejects turns : forall h wk,
  buffer wk = [] ->
  buffer (worker_loop ext rejects turns h wk).2 = [] /\
  stored (worker_loop ext rejects turns h wk).2 = stored wk.
Proof.
  induction turns as [|[arrived e] rest IH]; intros h wk Hb; cbn [worker_loop].
  - done.
  - assert (Hit : let r := worker_iter ext rejects e
                             (set_queue (data_queue h ++ arrived) h) wk in
                  buffer r.2 = [] /\ stored r.2 = stored wk).
    { cbv zeta. unfold worker_iter, drain. rewrite Hb.
      destruct (data_queue (set_queue (data_queue h ++ arrived) h)) as [|item q].
      - done.
      - by rewrite format_metadata_none. }
    destruct (worker_iter ext rejects e (set_queue (data_queue h ++ arrived) h) wk)
      as [[evs h1] wk1]. cbn [snd] in Hit. destruct Hit as [Hb1 Hs1].
    destruct (IH h1 wk1 Hb1) as [Hb2 Hs2].
    destruct (worker_loop ext rejects rest h1 wk1) as [[evs' h2] wk2].
    cbn [snd] in *. split; congruence.
Qed.

(** C8, the failing input.  The record of the sample detection is well
    formed: its values convert, and the track [_format_metadata] makes of
    its entry is normalized (the first coordinate, 10.5, is truncated to
    10).  The call [Metadata(...)] then passes the keyword [device], which
    the document does not declare (it declares [device_name]); the
    constructor raises, the error is logged and the record is dropped.  So
    is every record: [_format_metadata] never yields a document, the
    buffer of the worker stays empty, and nothing is ever stored. *)
Theorem normalized_record_dropped :
  let item := make_item pl1 in
  let raw := [(KInt 3, track3)] in
  i_track_ids_info item = VDict raw /\
  format_tracks ext0 raw ∅ ≫= lookup "3" =
    Some {| track_id := "3"; bbox := [10; 20; 30; 40];
            confidence := FNum (9 # 10); label := 2;
            label_name := VStr "person";
            instance_dict :=
              VDict [(KStr "door", VDict [(KStr "location", VStr "inside")])] |} /\
  py_float ext0 (i_inference_time item) = Some (FNum 0) /\
  undefined_fields Metadata_fields doc_keywords = ["device"] /\
  _format_metadata ext0 (fun _ => false) h0 item =
    (None, [EvError "Metadata formatting error"]) /\
  drain ext0 (fun _ => false) (put item h0) [] =
    ([EvGet 1; EvError "Metadata formatting error"], h0, []) /\
  (forall ext rejects h it,
     _format_metadata ext rejects h it = (None, [EvError "Metadata formatting error"])) /\
  (forall ext rejects t0 turns final_ok h stored0,
     (_batch_worker ext rejects t0 turns final_ok h stored0).2 = stored0).
Proof.
  cbv zeta. split; [reflexivity|]. split; [by vm_compute|].
  split; [reflexivity|]. split; [reflexivity|]. split; [reflexivity|].
  split; [reflexivity|]. split; [intros; apply format_metadata_none|].
  intros ext rejects t0 turns final_ok h stored0. unfold _batch_worker.
  destruct (worker_loop_stores_nothing ext rejects turns h
              {| buffer := []; last_flush_time := t0; stored := stored0 |} eq_refl)
    as [Hb Hs].
  destruct (worker_loop ext rejects turns h _) as [[evs h1] wk1].
  cbn [snd buffer stored] in Hb, Hs. unfold final_flush. rewrite Hb.
  cbn [fst snd]. exact Hs.
Qed.

(** A record whose class id is not a number fails normalization itself. *)
Example format_track_fails :
  format_track ext0 bad_details = None /\
  format_tracks ext0 [(KInt 3, track3); (KInt 4, bad_details)] ∅ = None.
Proof. split; reflexivity. Qed.

(** [float] of an integer rounds to the nearest double and overflows
    beyond the largest one. *)
Example float_of_int_rounds :
  py_float ext0 (VInt (2 ^ 53 + 1)) = Some (FNum (inject_Z (2 ^ 53))) /\
  py_float ext0 (VInt (2 ^ 53 + 3)) = Some (FNum (inject_Z (2 ^ 53 + 4))) /\
  py_float ext0 (VInt 7) = Some (FNum 7) /\
  py_float ext0 (VInt (2 ^ 1024)) = None.
Proof. repeat split; by vm_compute. Qed.

(** A buffer of one document is flushed once five seconds have passed,
    and is lost when the insert fails. *)
Example worker_flush_sample :
  let e := {| t_check := 6; t_flushed := 6; insert_ok := false |} in
  let wk := {| buffer := [doc0]; last_flush_time := 0; stored := [] |} in
  let r := worker_iter ext0 (fun _ => false) e h0 wk in
  inserts r.1.1 = [[doc0]] /\ buffer r.2 = [] /\ stored r.2 = [].
Proof. repeat split; reflexivity. Qed.

End MetadataRuns.

(** Concrete runs of the validator. *)

Module HealthRuns.
Import Frames Health Samples.

(** A frame that is white on nineteen pixels of twenty is not healthy,
    and "White Screen" is among its reasons. *)
Example white_frame_unhealthy :
  let white := Gray [replicate 19 255 ++ [0]] in
  (validate th0 cv0 (Some white)).1 = false /\
  "White Screen (Ratio: )" ∈ (validate th0 cv0 (Some white)).2.
Proof.
  cbv zeta. split; [reflexivity|].
  vm_compute. apply list_elem_of_In. right. by left.
Qed.

(** The Laplacian of a row and of a ramp, the border reflected, and its
    variance; a plane of one intensity has the variance zero and is
    reported blurred. *)
Example laplacian_samples :
  Laplacian [[1; 2; 3]] = [[2; 0; -2]] /\
  Laplacian [[1; 2; 3]; [4; 5; 6]; [7; 8; 9]] =
    [[8; 6; 4]; [2; 0; -2]; [-4; -6; -8]] /\
  Qeq (laplacian_var [[1; 2; 3]]) (8 # 3) /\
  Qeq (laplacian_var [[9; 9]; [9; 9]]) 0 /\
  (validate th0 cv0 (Some (Gray [[9; 9]; [9; 9]]))).2 =
    ["Low Entropy/Glitch (Ent: )"; "Black Screen (Intensity: )"; "Blurry (Var: )"].
Proof. repeat split; by vm_compute. Qed.

End HealthRuns.

(** ** More on the metadata sink *)

Module MetadataMore.
Import Py Frames Num NumFacts Metadata MetadataExt MetadataFacts.

Section Worker.
Context (ext : Externals) (rejects : Doc -> bool).

Lemma drain_spec h buf :
  drain ext rejects h buf =
    match data_queue h with
    | [] => ([EvGet 1], h, buf)
    | item :: rest =>
        (EvGet 1 :: match build_doc ext rejects h item with
                    | Some _ => []
                    | None => [EvError "Metadata formatting error"]
                    end,
         set_queue rest h, buf ++ formatted ext rejects h [item])
    end.
Proof.
  unfold drain, _format_metadata, formatted.
  destruct (data_queue h) as [|item rest]; [done|].
  cbn [omap list_omap].
  destruct (build_doc ext rejects h item); cbn; by rewrite ?app_nil_r.
Qed.

(** What one turn does to the queue, the buffer and the store. *)
Lemma worker_iter_conserves e h wk :
  let r := worker_iter ext rejects e h wk in
  exists consumed,
    data_queue h = consumed ++ data_queue r.1.2 /\
    (length consumed <= 1)%nat /\
    r.1.2 = set_queue (data_queue r.1.2) h /\
    stored r.2 ++ buffer r.2 `sublist_of`
      stored wk ++ buffer wk ++ formatted ext rejects h consumed /\
    (insert_ok e = true ->
       stored r.2 ++ buffer r.2 =
         stored wk ++ buffer wk ++ formatted ext rejects h consumed).
Proof.
  cbv zeta. unfold worker_iter. rewrite drain_spec.
  destruct h as [bs fi di dn q]. cbn [data_queue].
  destruct q as [|item rest].
  - exists []. cbn [formatted omap list_omap app data_queue set_queue length].
    rewrite app_nil_r.
    destruct (should_flush _ _ _ _); cbn [fst snd buffer stored data_queue].
    + repeat split; try done; try lia.
      * destruct (insert_ok e); rewrite app_nil_r; [done|].
        by apply sublist_inserts_r.
      * intros ->. by rewrite app_nil_r.
    + repeat split; try done; lia.
  - exists [item]. cbn [app data_queue set_queue length].
    destruct (should_flush _ _ _ _); cbn [fst snd buffer stored data_queue].
    + repeat split; try done; try lia.
      * destruct (insert_ok e); rewrite app_nil_r; [done|].
        by apply sublist_inserts_r.
      * intros ->. by rewrite app_nil_r.
    + repeat split; try done; lia.
Qed.

Lemma worker_loop_conserves turns : forall h wk,
  let r := worker_loop ext rejects turns h wk in
  exists consumed,
    data_queue h ++ concat (map fst turns) = consumed ++ data_queue r.1.2 /\
    (length consumed <= length turns)%nat /\
    r.1.2 = set_queue (data_queue r.1.2) h /\
    stored r.2 ++ buffer r.2 `sublist_of`
      stored wk ++ buffer wk ++ formatted ext rejects h consumed /\
    (Forall (fun t => insert_ok t.2 = true) turns ->
       stored r.2 ++ buffer r.2 =
         stored wk ++ buffer wk ++ formatted ext rejects h consumed).
Proof.
  induction turns as [|[arrived e] rest IH]; intros h wk; cbv zeta.
  - exists []. cbn. rewrite !app_nil_r. repeat split; try done.
    by destruct h.
  - cbn [worker_loop map concat fst].
    set (h0 := set_queue (data_queue h ++ arrived) h).
    destruct (worker_iter_conserves e h0 wk) as (c1 & Hq1 & Hl1 & Hh1 & Hs1 & He1).
    destruct (worker_iter ext rejects e h0 wk) as [[evs1 h1] wk1].
    cbn [fst snd] in Hq1, Hl1, Hh1, Hs1, He1.
    destruct (IH h1 wk1) as (c2 & Hq2 & Hl2 & Hh2 & Hs2 & He2).
    destruct (worker_loop ext rejects rest h1 wk1) as [[evs2 h2] wk2].
    cbn [fst snd] in *.
    assert (Hf : formatted ext rejects h1 c2 = formatted ext rejects h c2)
      by (rewrite Hh1; reflexivity).
    rewrite Hf in Hs2, He2.
    assert (Hfa : formatted ext rejects h (c1 ++ c2) =
                  formatted ext rejects h0 c1 ++ formatted ext rejects h c2)
      by (unfold formatted; by rewrite omap_app).
    exists (c1 ++ c2). repeat split.
    + subst h0. cbn [data_queue set_queue] in Hq1.
      rewrite <- app_assoc, <- Hq2, !app_assoc. by rewrite <- Hq1.
    + rewrite length_app. cbn [length]. lia.
    + rewrite Hh2, Hh1. by subst h0.
    + rewrite Hfa. etrans; [exact Hs2|].
      rewrite !app_assoc. apply sublist_app; [|done].
      by rewrite <- !app_assoc.
    + intros Hall. apply Forall_cons in Hall as [Hok Hrest].
      rewrite Hfa, (He2 Hrest), (app_assoc (stored wk1)), (He1 Hok).
      by rewrite <- !app_assoc.
Qed.


Lemma worker_loop_app t1 : forall t2 h wk,
  worker_loop ext rejects (t1 ++ t2) h wk =
    let r1 := worker_loop ext rejects t1 h wk in
    let r2 := worker_loop ext rejects t2 r1.1.2 r1.2 in
    (r1.1.1 ++ r2.1.1, r2.1.2, r2.2).
Proof.
  induction t1 as [|[arrived e] rest IH]; intros t2 h wk; cbv zeta.
  - cbn. by destruct (worker_loop ext rejects t2 h wk) as [[a b] c].
  - cbn [app worker_loop].
    destruct (worker_iter ext rejects e _ wk) as [[evs1 h1] wk1].
    rewrite IH. cbv zeta.
    destruct (worker_loop ext rejects rest h1 wk1) as [[evs2 h2] wk2]. cbn [fst snd].
    destruct (worker_loop ext rejects t2 h2 wk2) as [[evs3 h3] wk3]. cbn [fst snd].
    by rewrite app_assoc.
Qed.

(** X2.  After every turn of the worker loop the buffer is empty, or it
    holds fewer than [batch_size] documents and less than
    [flush_interval] seconds have passed, at the check of that turn,
    since the last flush. *)
Theorem worker_buffer_bounded turns arrived e h wk :
  let r := worker_loop ext rejects (turns ++ [(arrived, e)]) h wk in
  buffer r.2 = [] \/
  (Z.of_nat (length (buffer r.2)) < batch_size h /\
   (t_check e - last_flush_time r.2 < flush_interval h)%Q).
Proof.
  cbv zeta. rewrite worker_loop_app. cbv zeta.
  destruct (worker_loop_conserves turns h wk) as (_ & _ & _ & Hh & _).
  destruct (worker_loop ext rejects turns h wk) as [[evs1 h1] wk1].
  cbn [fst snd] in *. cbn [worker_loop].
  set (h2 := set_queue (data_queue h1 ++ arrived) h1).
  assert (Hbs : batch_size h2 = batch_size h /\ flush_interval h2 = flush_interval h)
    by (subst h2; rewrite Hh; done).
  destruct Hbs as [Hbs Hfi].
  unfold worker_iter.
  destruct (drain ext rejects h2 (buffer wk1)) as [[evs d] buf1].
  pose proof (should_flush_iff h2 buf1 (last_flush_time wk1) (t_check e)) as Hiff.
  destruct (should_flush h2 buf1 (last_flush_time wk1) (t_check e));
    cbn [fst snd buffer last_flush_time]; [by left|].
  destruct buf1 as [|d0 buf1]; [by left|]. right.
  rewrite <- Hbs, <- Hfi. split.
  - apply Z.lt_nge. intros Hle.
    assert (Hf : false = true) by (apply Hiff; split; [done|by left]).
    discriminate Hf.
  - apply Qnot_le_lt. intros Hle.
    assert (Hf : false = true) by (apply Hiff; split; [done|by right]).
    discriminate Hf.
Qed.

End Worker.

Section Normalization.
Context (ext : Externals) (rejects : Doc -> bool).



Lemma format_tracks_app l1 : forall l2 acc,
  format_tracks ext (l1 ++ l2) acc =
    match format_tracks ext l1 acc with
    | Some mid => format_tracks ext l2 mid
    | None => None
    end.
Proof.
  induction l1 as [|[k d] rest IH]; intros l2 acc; [done|].
  cbn [app format_tracks]. destruct (format_track ext d); [|done].
  cbn [mbind option_bind]. apply IH.
Qed.

Lemma format_tracks_other k raw : forall acc res,
  Forall (fun kd => py_str_key kd.1 <> k) raw ->
  format_tracks ext raw acc = Some res ->
  res !! k = acc !! k.
Proof.
  induction raw as [|[k' d] rest IH]; intros acc res Hall H; cbn [format_tracks] in H.
  - by injection H as <-.
  - apply Forall_cons in Hall as [Hk Hrest]. cbn [fst] in Hk.
    destruct (format_track ext d) as [t|]; [|done]. cbn [mbind option_bind] in H.
    rewrite (IH _ _ Hrest H). by rewrite lookup_insert_ne.
Qed.

Lemma format_tracks_size raw : forall acc res,
  format_tracks ext raw acc = Some res ->
  (size res <= size acc + length raw)%nat.
Proof.
  induction raw as [|[k d] rest IH]; intros acc res H; cbn [format_tracks] in H.
  - injection H as <-. cbn. lia.
  - destruct (format_track ext d) as [t|]; [|done]. cbn [mbind option_bind] in H.
    apply IH in H. cbn [length].
    destruct (acc !! py_str_key k) as [t0|] eqn:Hk.
    + rewrite map_size_insert_Some in H by done. lia.
    + rewrite map_size_insert_None in H by done. lia.
Qed.

(** X4.  The tracks of a document are keyed by the string of the track
    key, so two keys with the same string (the number 3 and the text
    "3") share one track: the track of a key is that of the last entry
    with its string, and a document has at most as many tracks as the
    record has entries. *)
Theorem last_entry_wins pre key details post res :
  format_tracks ext (pre ++ (key, details) :: post) ∅ = Some res ->
  Forall (fun kd => py_str_key kd.1 <> py_str_key key) post ->
  res !! py_str_key key = format_track ext details /\
  (size res <= length (pre ++ (key, details) :: post))%nat.
Proof.
  intros H Hpost. split.
  - rewrite format_tracks_app in H.
    destruct (format_tracks ext pre ∅) as [mid|]; [|done].
    cbn [format_tracks] in H.
    destruct (format_track ext details) as [t|]; [|done].
    cbn [mbind option_bind] in H.
    rewrite (format_tracks_other _ _ _ _ Hpost H). by rewrite lookup_insert_eq.
  - apply format_tracks_size in H. by rewrite map_size_empty in H.
Qed.


End Normalization.

End MetadataMore.

(** ** More on the frame source *)

Module CameraMore.
Import Frames Num NumFacts Camera CameraExt CameraFacts.

Section WithCv.
Context (cv : Health.Cv) (th : Health.Thresholds).

Lemma threshold_bounds f : (5 <= threshold f)%Q /\ (threshold f <= 10)%Q.
Proof.
  rewrite threshold_Qmax. split; [apply Q.le_max_l|].
  apply Q.max_lub; [done|].
  assert (H1 : (1 <= Qmax 1 f)%Q) by apply Q.le_max_l.
  assert (H0 : (0 < Qmax 1 f)%Q) by (eapply Qlt_le_trans; [|exact H1]; done).
  assert (He : (10 * (1 / Qmax 1 f) == 10 / Qmax 1 f)%Q)
    by (unfold Qdiv; by rewrite Qmult_1_l).
  rewrite He. apply Qle_shift_div_r; [done|].
  apply Qle_trans with (10 * 1)%Q; [rewrite Qmult_1_r; apply Qle_refl|].
  apply Qmult_le_l; done.
Qed.

(** X6.  Whatever frame rate the source reports, the freshness
    threshold lies between five and ten seconds: a last frame younger
    than five seconds always counts as connected, one that is ten seconds
    old or older never does. *)
Theorem freshness_between_five_and_ten now c :
  let fresh := (now - last_frame_time c)%Q in
  let c' := health_tick cv th now c in
  (5 <= threshold (fps c))%Q /\ (threshold (fps c) <= 10)%Q /\
  ((fresh < 5)%Q -> is_connected c' = true) /\
  ((10 <= fresh)%Q -> is_connected c' = false).
Proof.
  cbv zeta. rewrite health_tick_connected.
  destruct (threshold_bounds (fps c)) as [Hlo Hhi].
  split; [done|]. split; [done|]. split.
  - intros H. apply Qltb_lt. by eapply Qlt_le_trans.
  - intros H. apply Qltb_ge. by eapply Qle_trans.
Qed.

(** X7.  The health monitor is a passive observer: a tick leaves the
    open flag, the capture, the buffer slot with its time, the frame rate
    and every array of the store as they are, and adds at most its own
    copy of the buffered frame to the store. *)
Theorem health_tick_passive now c :
  let c' := health_tick cv th now c in
  is_open c' = is_open c /\ capture c' = capture c /\
  last_frame c' = last_frame c /\ last_frame_time c' = last_frame_time c /\
  fps c' = fps c /\ rotation c' = rotation c /\
  reconnect_interval c' = reconnect_interval c /\
  heap_ c `prefix_of` heap_ c' /\
  (length (heap_ c') <= S (length (heap_ c)))%nat.
Proof.
  cbv zeta. unfold health_tick.
  cbn [last_frame set_connected set_health heap_].
  destruct (last_frame c) as [r|] eqn:Hl.
  - unfold np_copy, alloc. destruct (heap_ c !! r) as [a|].
    + cbn [is_connected set_heap set_health set_connected heap_].
      destruct (Qltb _ _); [destruct (Health.validate th cv _)|];
        cbn; rewrite length_app; cbn;
        split_and!; try done; try lia; by apply prefix_app_r.
    + cbn. split_and!; try done; lia.
  - cbn. split_and!; try done; lia.
Qed.

Lemma update_frame_buffer_content a t c :
  let c' := _update_frame_buffer cv a t c in
  exists r, last_frame c' = Some r /\ heap_ c' !! r = Some (oriented cv c a) /\
            last_frame_time c' = t /\ heap_ c `prefix_of` heap_ c' /\
            fps c' = fps c /\ rotation c' = rotation c.
Proof.
  unfold _update_frame_buffer, _apply_rotation, oriented, alloc.
  destruct ((rotation c =? 90) || (rotation c =? 180) || (rotation c =? 270));
    cbn; eexists; (split; [reflexivity|]).
  - rewrite length_app. cbn.
    rewrite lookup_app_r by (rewrite length_app; cbn; lia).
    rewrite length_app. cbn. rewrite Nat.sub_diag.
    split_and!; try done. rewrite <- app_assoc. by apply prefix_app_r.
  - rewrite lookup_app_r by lia. rewrite Nat.sub_diag.
    split_and!; try done. by apply prefix_app_r.
Qed.

Lemma connect_heap o t c : heap_ c `prefix_of` heap_ (connect cv o t c).2.
Proof.
  unfold connect. destruct (conn_opened o); [|done].
  destruct (conn_warmup o) as [a| |msg]; [|done|done].
  cbn [snd]. unfold _extract_metadata. cbn [heap_ set_fps].
  destruct (update_frame_buffer_content a t
              (set_open true (set_capture (Some (conn_handle o)) c)))
    as (r & _ & _ & _ & Hp & _).
  exact Hp.
Qed.

Lemma reader_iter_heap e c n : heap_ c `prefix_of` heap_ (reader_iter cv e c n).1.2.
Proof.
  unfold reader_iter. destruct (negb (is_open c)).
  - unfold _reconnect. pose proof (connect_heap (r_connect e) (r_now e) c) as H.
    by destruct (connect cv (r_connect e) (r_now e) c) as [[cevs res] c'].
  - destruct (r_read e) as [a| |msg].
    + destruct (update_frame_buffer_content a (r_now e) c) as (r & _ & _ & _ & Hp & _).
      exact Hp.
    + by destruct (10 <? n + 1).
    + by destruct (10 <? n + 1).
Qed.

(** X8.  The store of frames only grows: neither the reader loop nor
    [read] writes into an array that exists, so a frame handed out by an
    earlier [read] keeps its contents whatever the reader does later. *)
Theorem frames_never_overwritten envs c n :
  heap_ c `prefix_of` heap_ (reader_loop cv envs c n).1.2 /\
  heap_ c `prefix_of` heap_ (read c).2 /\
  (forall r a, heap_ c !! r = Some a ->
     heap_ (reader_loop cv envs c n).1.2 !! r = Some a /\
     heap_ (read c).2 !! r = Some a).
Proof.
  assert (Hloop : forall envs c n,
            heap_ c `prefix_of` heap_ (reader_loop cv envs c n).1.2).
  { clear. intros envs. induction envs as [|e rest IH]; intros c n; [done|].
    cbn [reader_loop].
    pose proof (reader_iter_heap e c n) as H1.
    destruct (reader_iter cv e c n) as [[evs c1] n1]. cbn [fst snd] in H1.
    specialize (IH c1 n1).
    destruct (reader_loop cv rest c1 n1) as [[evs' c2] n2]. cbn [fst snd] in *.
    by etrans. }
  assert (Hread : heap_ c `prefix_of` heap_ (read c).2).
  { unfold read. destruct (negb (is_open c)); [done|].
    destruct (last_frame c) as [r|]; [|done].
    unfold np_copy, alloc. destruct (heap_ c !! r); [|done].
    cbn. by apply prefix_app_r. }
  split; [apply Hloop|]. split; [exact Hread|].
  intros r a Hr. split.
  - by apply (prefix_lookup_Some _ _ _ _ Hr), Hloop.
  - by apply (prefix_lookup_Some _ _ _ _ Hr).
Qed.

(** X9.  A frame the reader gets from the capture is what the next
    [read] returns: after a turn of the reader on an open source that
    delivers the frame [a], the counter of failures is zero, the buffer
    has the time of that turn, and [read] returns a new array holding [a]
    turned by the configured angle (or [a] itself for an angle other than
    90, 180 and 270 degrees, which is ignored). *)
Theorem reader_then_read e c n a :
  is_open c = true ->
  r_read e = ReadFrame a ->
  let c1 := (reader_iter cv e c n).1.2 in
  (reader_iter cv e c n).2 = 0 /\
  last_frame_time c1 = r_now e /\
  exists r',
    (read c1).1 = (true, Some r') /\
    heap_ (read c1).2 !! r' = Some (oriented cv c a) /\
    heap_ c1 !! r' = None.
Proof.
  intros Hopen Hread. cbv zeta. unfold reader_iter. rewrite Hopen, Hread.
  cbn [negb fst snd].
  destruct (update_frame_buffer_content a (r_now e) c) as (r & Hl & Hr & Ht & _ & _).
  destruct (update_frame_buffer_fields cv a (r_now e) c) as (_ & _ & Ho & _).
  split; [done|]. split; [done|].
  unfold read. rewrite Ho, Hopen, Hl. cbn [negb].
  unfold np_copy, alloc. rewrite Hr. cbn [fst snd heap_ set_heap].
  eexists. split; [reflexivity|]. split.
  - rewrite lookup_app_r by lia. by rewrite Nat.sub_diag.
  - by apply lookup_ge_None_2.
Qed.



(** X11.  [connect] returns [True] exactly when the capture is opened
    and the warm-up read delivers a frame.  Then the source is open, the
    warm-up frame is in the buffer, so that [read] returns it at once,
    and the frame rate is not zero (30 when the capture reports none).
    Otherwise only the capture handle changes: the source is as open or
    closed as before and the buffer and the frame rate are kept. *)
Theorem connect_outcome o t c :
  let c' := (connect cv o t c).2 in
  ((connect cv o t c).1.2 = Some true <-> connect_fails o = false) /\
  capture c' = Some (conn_handle o) /\
  (connect_fails o = false ->
     is_open c' = true /\
     Py.Qeqb0 (fps c') = false /\
     (Py.Qeqb0 (conn_fps o) = true -> fps c' = 30%Q) /\
     last_frame_time c' = t /\
     exists a r',
       conn_warmup o = ReadFrame a /\
       (read c').1 = (true, Some r') /\
       heap_ (read c').2 !! r' = Some (oriented cv c a)) /\
  (connect_fails o = true -> c' = set_capture (Some (conn_handle o)) c).
Proof.
  cbv zeta. unfold connect, connect_fails.
  destruct (conn_opened o); cbn [negb orb];
    [destruct (conn_warmup o) as [a| |msg]|]; cbn [fst snd];
    try (split_and!; try done; by split).
  set (c1 := set_open true (set_capture (Some (conn_handle o)) c)).
  destruct (update_frame_buffer_content a t c1) as (r & Hl & Hr & Ht & _ & Hf & _).
  destruct (update_frame_buffer_fields cv a t c1) as (_ & Hc & Ho & _).
  unfold _extract_metadata.
  split; [done|]. split; [exact Hc|]. split; [|done].
  intros _. cbn [is_open fps last_frame_time set_fps].
  split; [by rewrite Ho|]. split.
  { destruct (Py.Qeqb0 (conn_fps o)) eqn:Hz; [done|exact Hz]. }
  split. { by intros ->. }
  split; [done|].
  exists a. unfold read. cbn [is_open last_frame heap_ set_fps set_heap].
  rewrite Ho, Hl. cbn [is_open c1 set_open negb].
  unfold np_copy, alloc. rewrite Hr. cbn [fst snd heap_ set_heap].
  eexists. split; [done|]. split; [done|].
  rewrite lookup_app_r by lia. by rewrite Nat.sub_diag.
Qed.

Lemma connect_fails_closed o t c :
  connect_fails o = true ->
  is_open (connect cv o t c).2 = is_open c /\
  reconnect_interval (connect cv o t c).2 = reconnect_interval c.
Proof.
  unfold connect, connect_fails.
  destruct (conn_opened o); cbn [negb orb]; [|done].
  by destruct (conn_warmup o).
Qed.

(** X12.  The reader never gives up and never backs off longer: while
    the source is closed and [connect] keeps failing, every turn waits
    [reconnect_interval] seconds, the same each time, and calls [connect]
    once; the loop makes no read of its own, so the reads of the trace are
    the warm-up reads of [connect], one on each turn whose capture is
    opened, and each of them fails; the source stays closed and the
    counter of failures stays as it was. *)
Theorem reconnect_backoff_constant envs : forall c n,
  is_open c = false ->
  Forall (fun e => connect_fails (r_connect e) = true) envs ->
  let r := reader_loop cv envs c n in
  is_open r.1.2 = false /\
  r.2 = n /\
  omap sleep_of r.1.1 = replicate (length envs) (reconnect_interval c) /\
  length (filter (fun ev => is_connect ev = true) r.1.1) = length envs /\
  reads r.1.1 =
    replicate (length (filter (fun e => conn_opened (r_connect e) = true) envs)) false.
Proof.
  induction envs as [|e rest IH]; intros c n Hclosed Hall; cbv zeta.
  - done.
  - apply Forall_cons in Hall as [He Hrest]. cbn [reader_loop].
    destruct (connect_fails_closed (r_connect e) (r_now e) c He) as [Ho Hi].
    assert (Hev : forall res,
      let cevs := (connect cv (r_connect e) (r_now e) c).1.1 in
      let evs := match capture c with Some h => [EvRelease h] | None => [] end ++
                 [EvSleep (reconnect_interval c); EvConnect "auto"] ++ cevs ++
                 match res : option bool with
                 | None => [EvLog "Reconnection failed"]
                 | Some _ => []
                 end in
      omap sleep_of evs = [reconnect_interval c] /\
      length (filter (fun ev => is_connect ev = true) evs) = 1%nat /\
      reads evs = if conn_opened (r_connect e) then [false] else []).
    { intros res. cbv zeta. unfold connect, connect_fails in *.
      destruct (conn_opened (r_connect e)); cbn [negb orb] in He;
        [destruct (conn_warmup (r_connect e)) as [a| |msg]; [done| |]|];
        destruct (capture c) as [hd|]; destruct res as [b|]; cbn; done. }
    unfold reader_iter, _reconnect. rewrite Hclosed. cbn [negb].
    destruct (connect cv (r_connect e) (r_now e) c) as [[cevs res] c1].
    cbn [fst snd] in Ho, Hi, Hev. rewrite Hclosed in Ho.
    destruct (Hev res) as (E1 & E2 & E3).
    destruct (IH c1 n Ho Hrest) as (H1 & H2 & H3 & H4 & H5).
    destruct (reader_loop cv rest c1 n) as [[evs' c2] n2]. cbn [fst snd] in *.
    split; [done|]. split; [done|].
    unfold reads in *.
    set (evs0 := _ ++ _ ++ cevs ++ _) in *.
    rewrite !omap_app, filter_app, length_app, E1, E2, E3, H3, H4, H5, Hi.
    split; [done|]. split; [done|].
    destruct (conn_opened (r_connect e)) eqn:Hop.
    + by rewrite filter_cons_True by done.
    + rewrite filter_cons_False; [done|]. by rewrite Hop.
Qed.

Lemma reader_iter_time e c n :
  let c' := (reader_iter cv e c n).1.2 in
  last_frame_time c' = last_frame_time c \/ last_frame_time c' = r_now e.
Proof.
  cbv zeta. unfold reader_iter. destruct (negb (is_open c)).
  - unfold _reconnect, connect.
    destruct (conn_opened (r_connect e)); [|by left].
    destruct (conn_warmup (r_connect e)) as [a| |msg]; [|by left|by left].
    right. cbn [fst snd]. unfold _extract_metadata. cbn [last_frame_time set_fps].
    by destruct (update_frame_buffer_content a (r_now e)
      (set_open true (set_capture (Some (conn_handle (r_connect e))) c)))
      as (r & _ & _ & Ht & _).
  - destruct (r_read e) as [a| |msg].
    + right. cbn [fst snd].
      by destruct (update_frame_buffer_content a (r_now e) c) as (r & _ & _ & Ht & _).
    + left. by destruct (10 <? n + 1).
    + left. by destruct (10 <? n + 1).
Qed.

(** X13.  The time of the buffered frame only moves to the clock of a
    turn of the reader: after any turns it is the time it was or the
    clock of one of them, so it never goes back unless the clock does. *)
Theorem buffer_time_follows_clock envs : forall c n,
  let c' := (reader_loop cv envs c n).1.2 in
  (last_frame_time c' = last_frame_time c \/
   exists e, e ∈ envs /\ last_frame_time c' = r_now e) /\
  (Forall (fun e => (last_frame_time c <= r_now e)%Q) envs ->
   (last_frame_time c <= last_frame_time c')%Q).
Proof.
  assert (Hmem : forall envs c n,
    last_frame_time (reader_loop cv envs c n).1.2 = last_frame_time c \/
    exists e, e ∈ envs /\
      last_frame_time (reader_loop cv envs c n).1.2 = r_now e).
  { clear. induction envs as [|e rest IH]; intros c n; [by left|].
    cbn [reader_loop]. pose proof (reader_iter_time e c n) as H1.
    destruct (reader_iter cv e c n) as [[evs c1] n1]. cbn [fst snd] in H1.
    specialize (IH c1 n1).
    destruct (reader_loop cv rest c1 n1) as [[evs' c2] n2]. cbn [fst snd] in *.
    destruct IH as [IH|(e' & Hin & IH)].
    - rewrite IH. destruct H1 as [H1|H1]; [by left|].
      right. exists e. split; [by left|done].
    - right. exists e'. split; [by right|done]. }
  intros c n. cbv zeta. split; [apply Hmem|].
  intros Hall. destruct (Hmem envs c n) as [->|(e & Hin & ->)].
  - apply Qle_refl.
  - by apply (proj1 (Forall_forall _ _) Hall).
Qed.

End WithCv.

End CameraMore.

(** ** More on the pipeline runtime *)

Module EngineMore.
Import Py Frames Engine EngineExt EngineFacts.

Section Runtime.
Context {E : Type}.
Implicit Types (mods : list (Stage E)) (w : World E) (st : LoopState E).

Lemma run_modules_invokes mods : forall i w p,
  Forall (fun e => capture_number e = None /\ is_cleanup e = false)
         (run_modules i mods w p).1.1.
Proof.
  induction mods as [|m rest IH]; intros i w p; cbn [run_modules]; [done|].
  destruct (process m w p) as [[p'| |msg] w0].
  - specialize (IH (S i) w0 p').
    destruct (run_modules (S i) rest w0 p') as [[evs o] w1]. cbn [fst] in *.
    by apply Forall_cons.
  - cbn. by apply Forall_cons.
  - cbn. by apply Forall_cons.
Qed.

Lemma omap_no_capture (evs : list Event) :
  Forall (fun e => capture_number e = None /\ is_cleanup e = false) evs ->
  omap capture_number evs = [] /\
  filter (fun e => is_cleanup e = true) evs = [].
Proof.
  induction 1 as [|e evs [Hc Hk] _ [IH1 IH2]]; [done|].
  split.
  - change (omap capture_number (e :: evs))
      with (match capture_number e with
            | Some n => n :: omap capture_number evs
            | None => omap capture_number evs
            end).
    by rewrite Hc.
  - rewrite filter_cons_False by (rewrite Hk; done). done.
Qed.

(** X14.  Once [run] has left its loop nothing more happens, whatever
    the camera goes on to offer. *)
Theorem run_stable_after_exit mods ticks : forall st evs w more,
  run mods ticks st = (evs, Exited w) ->
  run mods (ticks ++ more) st = (evs, Exited w).
Proof.
  induction ticks as [|t ts IH]; intros st evs w more H.
  - discriminate H.
  - rewrite <- app_comm_cons. rewrite run_cons in H |- *.
    destruct (shutdown_set t || negb (cam_open t)); [done|].
    destruct (negb (read_ret t)).
    + destruct (run mods ts st) as [evs1 s1] eqn:Hr. cbn [fst snd] in H.
      injection H as <- ->. by rewrite (IH _ _ _ more Hr).
    + destruct (read_frame t) as [a|]; [|done]. cbv zeta in H |- *.
      destruct (run_modules 0 mods _ _) as [[evs1 o] w1].
      destruct o as [q| |msg]; [| |done].
      * destruct (run mods ts _) as [evs2 s2] eqn:Hr. cbn [fst snd] in H.
        injection H as <- ->. by rewrite (IH _ _ _ more Hr).
      * destruct (run mods ts _) as [evs2 s2] eqn:Hr. cbn [fst snd] in H.
        injection H as <- ->. by rewrite (IH _ _ _ more Hr).
Qed.

(** X15.  [cleanup] runs when the loop is left and only then: a run
    that has ended shows it exactly once, as its last event, and a run
    that is still going shows none. *)
Theorem cleanup_once_at_the_end mods ticks : forall st,
  match (run mods ticks st).2 with
  | Exited _ =>
      filter (fun e => is_cleanup e = true) (run mods ticks st).1 = [EvCleanup] /\
      last (run mods ticks st).1 = Some EvCleanup
  | Running _ =>
      filter (fun e => is_cleanup e = true) (run mods ticks st).1 = []
  end.
Proof.
  induction ticks as [|t ts IH]; intros st; [done|].
  rewrite run_cons.
  destruct (shutdown_set t || negb (cam_open t)); [done|].
  destruct (negb (read_ret t)).
  - specialize (IH st). cbn [fst snd].
    destruct ((run mods ts st).2).
    + by rewrite !filter_cons_False by (cbn; done).
    + destruct IH as [IH1 IH2]. rewrite !filter_cons_False by (cbn; done).
      split; [done|]. destruct ((run mods ts st).1) as [|e l]; [done|].
      exact IH2.
  - destruct (read_frame t) as [a|]; [|done]. cbv zeta.
    pose proof (run_modules_invokes mods 0 (build_payload st a (now t)).2
                  (build_payload st a (now t)).1) as Hinv.
    destruct (run_modules 0 mods _ _) as [[evs1 o] w1]. cbn [fst] in Hinv.
    destruct (omap_no_capture evs1 Hinv) as [_ Hnc].
    assert (Hstep : forall st',
      match (run mods ts st').2 with
      | Exited _ =>
          filter (fun e => is_cleanup e = true)
            (EvCapture (frame_count st) (build_payload st a (now t)).1
               :: evs1 ++ (run mods ts st').1) = [EvCleanup] /\
          last (EvCapture (frame_count st) (build_payload st a (now t)).1
                  :: evs1 ++ (run mods ts st').1) = Some EvCleanup
      | Running _ =>
          filter (fun e => is_cleanup e = true)
            (EvCapture (frame_count st) (build_payload st a (now t)).1
               :: evs1 ++ (run mods ts st').1) = []
      end).
    { intros st'. specialize (IH st').
      destruct ((run mods ts st').2).
      - rewrite filter_cons_False by (cbn; done). by rewrite filter_app, Hnc.
      - destruct IH as [IH1 IH2].
        rewrite filter_cons_False by (cbn; done). rewrite filter_app, Hnc.
        split; [done|].
        destruct ((run mods ts st').1) as [|e l] eqn:Hl; [done|].
        rewrite app_comm_cons, last_app. by rewrite IH2. }
    destruct o as [q| |msg]; cbn [fst snd]; [apply Hstep|apply Hstep|].
    rewrite filter_cons_False by (cbn; done). rewrite filter_app, Hnc.
    split; [done|].
    rewrite app_comm_cons, last_app. done.
Qed.

Lemma capture_numbers_cons (e : Event) (l : list Event) :
  omap capture_number (e :: l) =
    match capture_number e with
    | Some n => n :: omap capture_number l
    | None => omap capture_number l
    end.
Proof. reflexivity. Qed.

(** X16.  The frames a run captures are numbered without gaps from the
    count it starts with, in the order of capture: a turn on which the
    read fails takes no number, an aborted frame takes one like a
    completed frame, and while the run goes on the count has advanced by
    the number of frames captured. *)
Theorem frame_numbers_consecutive mods ticks : forall st,
  let r := run mods ticks st in
  let ns := omap capture_number r.1 in
  ns = seqZ (frame_count st) (Z.of_nat (length ns)) /\
  match r.2 with
  | Running st' => frame_count st' = frame_count st + Z.of_nat (length ns)
  | Exited _ => True
  end.
Proof.
  induction ticks as [|t ts IH]; intros st; cbv zeta.
  - cbn. split; [done|lia].
  - rewrite run_cons.
    destruct (shutdown_set t || negb (cam_open t)); [done|].
    destruct (negb (read_ret t)).
    + cbn [fst snd]. rewrite !capture_numbers_cons. cbn [capture_number].
      apply IH.
    + destruct (read_frame t) as [a|]; [|done]. cbv zeta.
      pose proof (run_modules_invokes mods 0 (build_payload st a (now t)).2
                    (build_payload st a (now t)).1) as Hinv.
      destruct (run_modules 0 mods _ _) as [[evs1 o] w1]. cbn [fst] in Hinv.
      destruct (omap_no_capture evs1 Hinv) as [Hnc _].
      assert (Hstep : forall st',
        frame_count st' = frame_count st + 1 ->
        let r := run mods ts st' in
        let ns := omap capture_number
                    (EvCapture (frame_count st) (build_payload st a (now t)).1
                       :: evs1 ++ r.1) in
        ns = seqZ (frame_count st) (Z.of_nat (length ns)) /\
        match r.2 with
        | Running st'' => frame_count st'' = frame_count st + Z.of_nat (length ns)
        | Exited _ => True
        end).
      { intros st' Hfc. cbv zeta. rewrite capture_numbers_cons. cbn [capture_number].
        rewrite omap_app, Hnc. cbn [app length].
        destruct (IH st') as [IH1 IH2]. rewrite Hfc in IH1, IH2.
        split.
        - rewrite (seqZ_cons (frame_count st)) by lia.
          replace (Z.pred (Z.of_nat (S (length (omap capture_number (run mods ts st').1)))))
            with (Z.of_nat (length (omap capture_number (run mods ts st').1))) by lia.
          replace (Z.succ (frame_count st)) with (frame_count st + 1) by lia.
          by rewrite <- IH1.
        - destruct ((run mods ts st').2); [|done]. lia. }
      destruct o as [q| |msg]; cbn [fst snd]; [by apply Hstep|by apply Hstep|].
      rewrite capture_numbers_cons. cbn [capture_number].
      rewrite omap_app, Hnc. cbn. done.
Qed.

End Runtime.

Section Build.
Context {I : Type}
        (resolve : string -> string -> option (gmap string cfgval -> option I)).

Lemma build_pipeline_step dn step rest (loaded : list I) :
  build_pipeline resolve dn (step :: rest) loaded =
    if named step then
      match instance_of resolve dn step with
      | Some inst => build_pipeline resolve dn rest (loaded ++ [inst])
      | None => SysExit 1 loaded
      end
    else
      match s_name step, s_module_path step with
      | None, _ => KeyError "name" loaded
      | Some _, None => KeyError "module_path" loaded
      | Some _, Some _ => KeyError "class_name" loaded
      end.
Proof.
  cbn [build_pipeline]. unfold named, instance_of.
  destruct (s_name step), (s_module_path step), (s_class_name step); try done.
Qed.

Lemma build_pipeline_app dn l1 : forall l2 (loaded : list I),
  build_pipeline resolve dn (l1 ++ l2) loaded =
    match build_pipeline resolve dn l1 loaded with
    | Built mods => build_pipeline resolve dn l2 mods
    | o => o
    end.
Proof.
  induction l1 as [|step rest IH]; intros l2 loaded; [done|].
  rewrite <- app_comm_cons, !build_pipeline_step.
  destruct (named step).
  - destruct (instance_of resolve dn step); [apply IH|done].
  - by destruct (s_name step), (s_module_path step).
Qed.

(** X17.  [build_pipeline] fails fast: when the entries before it have
    all been built and an entry with its three names cannot be imported,
    has no such class or its constructor raises, the engine exits with
    status 1, keeping the modules built so far; the entries after it are
    not looked at, so none of them is built or can fail. *)
Theorem build_pipeline_fails_fast dn pre bad post (loaded mods : list I) :
  build_pipeline resolve dn pre loaded = Built mods ->
  named bad = true ->
  instance_of resolve dn bad = None ->
  build_pipeline resolve dn (pre ++ bad :: post) loaded = SysExit 1 mods.
Proof.
  intros Hpre Hn Hi. rewrite build_pipeline_app, Hpre, build_pipeline_step.
  by rewrite Hn, Hi.
Qed.

Lemma runtime_config_lookup dn (static : gmap string pyval) k :
  runtime_config dn static !! k =
    if decide (k = "deviceName") then Some (CVal dn)
    else if decide (k = "ip_camera") then Some CCamera
    else CVal <$> static !! k.
Proof.
  unfold runtime_config. destruct (decide (k = "deviceName")) as [->|H1].
  - by rewrite lookup_insert_eq.
  - rewrite lookup_insert_ne by done.
    destruct (decide (k = "ip_camera")) as [->|H2].
    + by rewrite lookup_insert_eq.
    + rewrite lookup_insert_ne by done. by rewrite lookup_fmap.
Qed.

(** X18.  [build_pipeline] succeeds exactly when every entry has its
    three names and is built into an instance; the pipeline then holds
    the instances of the entries, one each, in the order of the JSON
    file, after the modules it held.  An entry is built only when its
    "config" is absent or a JSON object: any other value (null, a number,
    a string, a list) makes the engine exit with status 1, like a failed
    import.  The module is built with its own static configuration (the
    empty one when "config" is absent) plus the camera under "ip_camera"
    and the device name under "deviceName", which replace entries of
    these names in the static configuration. *)
Theorem build_pipeline_built dn steps : forall (loaded mods : list I),
  (build_pipeline resolve dn steps loaded = Built mods <->
   exists insts,
     mods = loaded ++ insts /\
     Forall2 (fun step inst =>
                named step = true /\ instance_of resolve dn step = Some inst)
             steps insts) /\
  (forall step inst,
     instance_of resolve dn step = Some inst ->
     exists mod_path cls_name class_ref static,
       s_module_path step = Some mod_path /\
       s_class_name step = Some cls_name /\
       resolve mod_path cls_name = Some class_ref /\
       default (JObject ∅) (s_config step) = JObject static /\
       class_ref (runtime_config dn static) = Some inst) /\
  (forall step v rest,
     s_config step = Some (JOther v) ->
     instance_of resolve dn step = None /\
     (named step = true ->
      build_pipeline resolve dn (step :: rest) loaded = SysExit 1 loaded)) /\
  (forall static,
     runtime_config dn static !! "deviceName" = Some (CVal dn) /\
     runtime_config dn static !! "ip_camera" = Some CCamera /\
     forall k, k <> "deviceName" -> k <> "ip_camera" ->
       runtime_config dn static !! k = CVal <$> static !! k).
Proof.
  intros loaded mods.
  assert (Hother : forall step v,
    s_config step = Some (JOther v) -> instance_of resolve dn step = None).
  { intros step v Hc. unfold instance_of, load_module. rewrite Hc. cbn [default].
    destruct (s_name step), (s_module_path step), (s_class_name step); try done.
    by destruct (resolve _ _). }
  split; [|split; [|split]].
  - revert loaded mods. induction steps as [|step rest IH]; intros loaded mods.
    + cbn [build_pipeline]. split.
      * intros [= <-]. exists []. by rewrite app_nil_r.
      * intros (insts & -> & H). apply Forall2_nil_inv_l in H as ->.
        by rewrite app_nil_r.
    + rewrite build_pipeline_step. split.
      * destruct (named step) eqn:Hn;
          [|by destruct (s_name step), (s_module_path step)].
        destruct (instance_of resolve dn step) as [inst|] eqn:Hi; [|done].
        intros H. apply IH in H as (insts & -> & H).
        exists (inst :: insts). split; [by rewrite <- app_assoc|].
        constructor; [by split|done].
      * intros (insts & -> & H).
        apply Forall2_cons_inv_l in H as (inst & insts' & [Hn Hi] & H & ->).
        rewrite Hn, Hi. apply IH. exists insts'.
        split; [by rewrite <- app_assoc|done].
  - intros step inst. unfold instance_of, load_module.
    destruct (s_name step), (s_module_path step) as [mp|], (s_class_name step) as [cn|];
      try done.
    destruct (resolve mp cn) as [cls|] eqn:Hr; [|done].
    destruct (default (JObject ∅) (s_config step)) as [m|v] eqn:Hc; [|done].
    intros Hi. by exists mp, cn, cls, m.
  - intros step v rest Hc. split; [by apply (Hother step v)|].
    intros Hn. by rewrite build_pipeline_step, Hn, (Hother step v Hc).
  - intros static. rewrite !runtime_config_lookup.
    split; [done|]. split; [done|].
    intros k H1 H2. rewrite runtime_config_lookup.
    by rewrite !decide_False by done.
Qed.

End Build.

(** *** [cleanup] *)

Lemma closers_of_lookup has_close i :
  i ∈ closers_of has_close <-> has_close !! i = Some true.
Proof.
  unfold closers_of. rewrite list_elem_of_omap. split.
  - intros ([j b] & Hin & Hf).
    apply elem_of_lookup_imap in Hin as (k & c & [= -> ->] & Hl).
    cbn [fst snd] in Hf. destruct c; [|done]. by injection Hf as <-.
  - intros Hl. exists (i, true). split; [|done].
    apply elem_of_lookup_imap. by exists i, true.
Qed.

Lemma omap_closed l : omap closed_module (map CClose l) = l.
Proof. induction l as [|i l IH]; [done|]. cbn. by rewrite IH. Qed.

(** X26.  [cleanup] calls [self.camera.disconnect()], and [IP_Camera] has
    [close] but no [disconnect]: with the camera of the repository the
    call raises [AttributeError] right after its log line, before the
    loop over the modules, so no [close] hook of a module is called.
    With a camera object that has [disconnect], [cleanup] calls it and
    then [close] on the modules that have one, each once, in the order of
    the pipeline. *)
Theorem cleanup_stops_at_disconnect (has_close : list bool) :
  let r := cleanup (Some IP_Camera_attrs) has_close in
  ("close" ∈ IP_Camera_attrs) /\ ("disconnect" ∉ IP_Camera_attrs) /\
  r.2 = Some no_disconnect_msg /\
  omap closed_module r.1 = [] /\
  (forall attrs, "disconnect" ∈ attrs ->
     let r' := cleanup (Some attrs) has_close in
     r'.2 = None /\
     r'.1 !! 1%nat = Some CDisconnect /\
     omap closed_module r'.1 = closers_of has_close /\
     forall i, i ∈ closers_of has_close <-> has_close !! i = Some true).
Proof.
  cbv zeta.
  assert (Hno : "disconnect" ∉ IP_Camera_attrs).
  { apply (bool_decide_unpack ("disconnect" ∉ IP_Camera_attrs)). by vm_compute. }
  split. { apply (bool_decide_unpack ("close" ∈ IP_Camera_attrs)). by vm_compute. }
  split; [exact Hno|].
  unfold cleanup. rewrite (bool_decide_eq_false_2 _ Hno). split; [done|]. split; [done|].
  intros attrs Hin. rewrite (bool_decide_eq_true_2 _ Hin). cbn [fst snd].
  split; [done|]. split; [done|]. split.
  - cbn [omap list_omap closed_module]. apply omap_closed.
  - apply closers_of_lookup.
Qed.

End EngineMore.

(** ** The runtime and the metadata sink together *)

Module PipelineMore.
Import Py Frames Engine EngineExt EngineFacts.

Lemma metadata_on_new_payload (st : LoopState Metadata.Handler) a tm :
  let p := (build_payload st a tm).1 in
  let w0 := (build_payload st a tm).2 in
  run_modules 0 [Metadata.stage] w0 p = ([EvInvoke 0 p], Completed p, w0) /\
  ext w0 = ext (world st) /\
  payloads (world st) `prefix_of` payloads w0.
Proof.
  cbv zeta. rewrite build_payload_eq. cbn [fst snd run_modules].
  cbn [process Metadata.stage]. unfold Metadata.process.
  cbn [payloads ext frames].
  rewrite lookup_app_r by lia. rewrite Nat.sub_diag. cbn [lookup list_lookup].
  unfold Metadata.process_payload, Metadata.track_info. cbn [meta].
  rewrite lookup_empty. cbn [default py_truthy].
  split; [done|]. split; [done|]. by apply prefix_app_r.
Qed.

(** X19.  Every frame starts with an empty [meta]: a pipeline that
    holds the metadata handler alone puts nothing on its queue, whatever
    the payloads of earlier frames hold, and never loses or changes a
    payload object. *)
Theorem metadata_alone_queues_nothing ticks : forall st : LoopState Metadata.Handler,
  let r := run [Metadata.stage] ticks st in
  ext (final_world r.2) = ext (world st) /\
  payloads (world st) `prefix_of` payloads (final_world r.2).
Proof.
  induction ticks as [|t ts IH]; intros st; cbv zeta; [done|].
  rewrite run_cons.
  destruct (shutdown_set t || negb (cam_open t)); [done|].
  destruct (negb (read_ret t)); [apply IH|].
  destruct (read_frame t) as [a|]; [|done]. cbv zeta.
  destruct (metadata_on_new_payload st a (now t)) as (-> & He & Hp).
  cbn [fst snd].
  destruct (IH {| world := (build_payload st a (now t)).2;
                  frame_count := frame_count st + 1 |}) as [IH1 IH2].
  cbn [world] in IH1, IH2. split; [by rewrite IH1|by etrans].
Qed.

End PipelineMore.

(** ** More on the frame health validator *)

Module HealthMore.
Import Frames Num NumFacts Health HealthLemmas.

Section Validator.
Context (th : Thresholds) (cv : Cv).

(** X20.  The histogram counts every pixel with an intensity from 0 to
    255 once and ignores the others: its sum is the number of such
    pixels.  So for a plane of bytes that is not empty the sum is
    positive and the entropy is that of the histogram; the guard for a
    sum of zero applies only when no pixel is in the range. *)
Theorem histogram_counts_pixels (gray : list (list Z)) :
  length (calcHist gray) = 256%nat /\
  Zsum (calcHist gray) =
    count_if (fun v => (0 <=? v) && (v <? 256)) (concat gray) /\
  (Forall (fun v => 0 <= v <= 255) (concat gray) ->
     Zsum (calcHist gray) = Z.of_nat (length (concat gray)) /\
     (concat gray <> [] ->
        _calculate_entropy cv gray = shannon cv (calcHist gray))) /\
  (Forall (fun v => v < 0 \/ 255 < v) (concat gray) ->
     _calculate_entropy cv gray = 0%Q).
Proof.
  unfold calcHist. split; [by rewrite length_map, length_seq|].
  pose proof (hist_sum (concat gray) 256) as Hs.
  change (Z.of_nat 256) with 256 in Hs.
  split; [exact Hs|]. split.
  - intros Hall.
    assert (Hn : Zsum (map (fun i => count_if (Z.eqb (Z.of_nat i)) (concat gray))
                          (seq 0 256)) = Z.of_nat (length (concat gray))).
    { rewrite Hs. apply count_if_all. eapply Forall_impl; [exact Hall|].
      intros v Hv. cbn beta in Hv |- *. apply andb_true_iff.
      rewrite Z.leb_le, Z.ltb_lt. lia. }
    split; [exact Hn|]. intros Hne.
    unfold _calculate_entropy, calcHist. rewrite Hn.
    destruct (concat gray) as [|v l]; [done|].
    by destruct (Z.of_nat (length (v :: l)) <=? 0) eqn:Hle;
      [apply Z.leb_le in Hle; cbn [length] in Hle; lia|].
  - intros Hall. unfold _calculate_entropy, calcHist. rewrite Hs.
    assert (H0 : count_if (fun v => (0 <=? v) && (v <? 256)) (concat gray) = 0).
    { clear Hs. induction Hall as [|v l Hv _ IH]; [done|].
      rewrite count_if_cons, IH.
      destruct ((0 <=? v) && (v <? 256)) eqn:Hb; [|done].
      apply andb_true_iff in Hb. rewrite Z.leb_le, Z.ltb_lt in Hb.
      cbn beta in Hv. lia. }
    by rewrite H0.
Qed.

Lemma gray_pixels (a : ndarray) :
  size a <> 0%nat -> (0 < length (concat (to_gray cv a)))%nat.
Proof.
  destruct a as [rows|rows]; cbn [size to_gray]; [lia|].
  assert (H : length (concat (map (map (bgr2gray cv)) rows)) = length (concat rows)).
  { induction rows as [|r rows IH]; [done|].
    cbn [map concat]. by rewrite !length_app, length_map, IH. }
  rewrite H. lia.
Qed.

Lemma white_ratio_range (g : list (list Z)) :
  (0 <= white_ratio g)%Q /\ (white_ratio g <= 1)%Q.
Proof.
  unfold white_ratio.
  pose proof (count_if_bounds (fun v => 220 <? v) (concat g)) as [H0 H1].
  set (k := count_if (fun v => 220 <? v) (concat g)) in *.
  set (n := Z.of_nat (length (concat g))) in *.
  split.
  - apply Qmult_le_0_compat.
    + change 0%Q with (inject_Z 0). by rewrite <- Zle_Qle.
    + apply Qinv_le_0_compat. change 0%Q with (inject_Z 0).
      rewrite <- Zle_Qle. lia.
  - destruct (decide (n = 0)) as [Hn|Hn].
    + rewrite Hn. unfold Qdiv. change (/ inject_Z 0)%Q with 0%Q.
      rewrite Qmult_0_r. done.
    + apply Qle_shift_div_r.
      * change 0%Q with (inject_Z 0). rewrite <- Zlt_Qlt. lia.
      * rewrite Qmult_1_l. by rewrite <- Zle_Qle.
Qed.

Lemma validate_some (a : ndarray) :
  size a <> 0%nat ->
  let g := to_gray cv a in
  let rs :=
    (if Qltb (_calculate_entropy cv g) (entropy_thresh th)
     then ["Low Entropy/Glitch (Ent: " +:+ fmt cv 2 (_calculate_entropy cv g) +:+ ")"]
     else []) ++
    (if Qltb (white_thresh th) (white_ratio g)
     then ["White Screen (Ratio: " +:+ fmt cv 2 (white_ratio g) +:+ ")"] else []) ++
    (if Qltb (mean g) (black_thresh th)
     then ["Black Screen (Intensity: " +:+ fmt cv 1 (mean g) +:+ ")"] else []) ++
    (if Qltb (laplacian_var g) (blur_thresh th)
     then ["Blurry (Var: " +:+ fmt cv 1 (laplacian_var g) +:+ ")"] else []) in
  validate th cv (Some a) = (match rs with [] => true | _ => false end, rs).
Proof.
  intros Hsize. cbv zeta. unfold validate.
  apply Nat.eqb_neq in Hsize. rewrite Hsize.
  unfold _check_glitch, _check_black_screen, _check_blur.
  destruct (Qltb (_calculate_entropy cv (to_gray cv a)) (entropy_thresh th));
    destruct (Qltb (white_thresh th) (white_ratio (to_gray cv a)));
    destruct (Qltb (mean (to_gray cv a)) (black_thresh th));
    destruct (Qltb (laplacian_var (to_gray cv a)) (blur_thresh th));
    reflexivity.
Qed.

(** X21.  A frame whose luminance is above 220 on every pixel is never
    healthy when [white_thresh] is below one: the share of white pixels
    is one, and "White Screen" is among the reasons, whatever the
    entropy, the mean and the sharpness of the frame. *)
Theorem white_frame_is_unhealthy (a : ndarray) :
  size a <> 0%nat ->
  Forall (fun v => 220 < v) (concat (to_gray cv a)) ->
  (white_thresh th < 1)%Q ->
  let g := to_gray cv a in
  (white_ratio g == 1)%Q /\
  (validate th cv (Some a)).1 = false /\
  ("White Screen (Ratio: " +:+ fmt cv 2 (white_ratio g) +:+ ")")
    ∈ (validate th cv (Some a)).2.
Proof.
  intros Hsize Hall Hth. cbv zeta.
  pose proof (gray_pixels a Hsize) as Hlen.
  assert (Hr : (white_ratio (to_gray cv a) == 1)%Q).
  { unfold white_ratio. rewrite count_if_all.
    - unfold Qdiv. apply Qmult_inv_r. intros H.
      assert (Hz : Z.of_nat (length (concat (to_gray cv a))) = 0)
        by (unfold Qeq in H; cbn in H; lia).
      lia.
    - eapply Forall_impl; [exact Hall|]. intros v Hv. cbn beta in Hv |- *.
      by apply Z.ltb_lt. }
  split; [exact Hr|].
  assert (Hw : Qltb (white_thresh th) (white_ratio (to_gray cv a)) = true)
    by (apply Qltb_lt; by rewrite Hr).
  rewrite (validate_some a Hsize). cbv zeta. rewrite Hw. cbn [fst snd].
  split.
  - by destruct (Qltb (_calculate_entropy cv (to_gray cv a)) (entropy_thresh th)).
  - apply elem_of_app. right. apply elem_of_app. left. by apply list_elem_of_In; left.
Qed.

Lemma Zsum_le_all (m : Z) (l : list Z) :
  Forall (fun v => v <= m) l -> Zsum l <= m * Z.of_nat (length l).
Proof.
  unfold Zsum. induction 1 as [|v l Hv _ IH]; [cbn; lia|].
  cbn [fold_right length]. lia.
Qed.

(** X22.  A frame whose luminance is at most [m] on every pixel, for an
    [m] below [black_thresh], is never healthy: its mean intensity is at
    most [m], and "Black Screen" is among the reasons. *)
Theorem dark_frame_is_unhealthy (a : ndarray) (m : Z) :
  size a <> 0%nat ->
  Forall (fun v => v <= m) (concat (to_gray cv a)) ->
  (inject_Z m < black_thresh th)%Q ->
  let g := to_gray cv a in
  (mean g <= inject_Z m)%Q /\
  (validate th cv (Some a)).1 = false /\
  ("Black Screen (Intensity: " +:+ fmt cv 1 (mean g) +:+ ")")
    ∈ (validate th cv (Some a)).2.
Proof.
  intros Hsize Hall Hth. cbv zeta.
  pose proof (gray_pixels a Hsize) as Hlen.
  assert (Hm : (mean (to_gray cv a) <= inject_Z m)%Q).
  { unfold mean. apply Qle_shift_div_r.
    - change 0%Q with (inject_Z 0). rewrite <- Zlt_Qlt. lia.
    - rewrite <- inject_Z_mult, <- Zle_Qle. by apply Zsum_le_all. }
  split; [exact Hm|].
  assert (Hb : Qltb (mean (to_gray cv a)) (black_thresh th) = true)
    by (apply Qltb_lt; by eapply Qle_lt_trans).
  rewrite (validate_some a Hsize). cbv zeta. rewrite Hb. cbn [fst snd].
  split.
  - destruct (Qltb (_calculate_entropy cv (to_gray cv a)) (entropy_thresh th));
      destruct (Qltb (white_thresh th) (white_ratio (to_gray cv a))); done.
  - apply elem_of_app. right. apply elem_of_app. right.
    apply elem_of_app. left. by apply list_elem_of_In; left.
Qed.

(** X23.  For every frame that passes the guard for an empty frame the
    luminance plane has a pixel, so the share of white pixels and the
    mean divide by a positive count, and the share lies between zero and
    one.  With a [white_thresh] of one or more the white-screen check
    therefore never fires: the reasons are those of the three other
    checks. *)
Theorem white_share_in_unit_interval (a : ndarray) :
  size a <> 0%nat ->
  let g := to_gray cv a in
  (0 < length (concat g))%nat /\
  (0 <= white_ratio g)%Q /\ (white_ratio g <= 1)%Q /\
  ((1 <= white_thresh th)%Q ->
     (validate th cv (Some a)).2 =
       (if Qltb (_calculate_entropy cv g) (entropy_thresh th)
        then ["Low Entropy/Glitch (Ent: " +:+ fmt cv 2 (_calculate_entropy cv g) +:+ ")"]
        else []) ++
       (if Qltb (mean g) (black_thresh th)
        then ["Black Screen (Intensity: " +:+ fmt cv 1 (mean g) +:+ ")"] else []) ++
       (if Qltb (laplacian_var g) (blur_thresh th)
        then ["Blurry (Var: " +:+ fmt cv 1 (laplacian_var g) +:+ ")"] else [])).
Proof.
  intros Hsize. cbv zeta.
  destruct (white_ratio_range (to_gray cv a)) as [H0 H1].
  split; [by apply gray_pixels|]. split; [done|]. split; [done|].
  intros Hth.
  assert (Hw : Qltb (white_thresh th) (white_ratio (to_gray cv a)) = false)
    by (apply Qltb_ge; by eapply Qle_trans).
  rewrite (validate_some a Hsize). cbv zeta. by rewrite Hw.
Qed.

End Validator.

End HealthMore.

(** ** Opening the stream *)

Module StreamMore.
Import StreamExt.

Lemma detect_two_codecs probe :
  _detect_stream_codec probe = "h264" \/ _detect_stream_codec probe = "h265".
Proof.
  unfold _detect_stream_codec. destruct probe as [[rc out]|]; [|by left].
  destruct (rc =? 0); [|by left].
  destruct (contains "hevc" _ || contains "265" _); [by right|by left].
Qed.

Lemma gst_pipeline_by_elements uri codec :
  _gst_pipeline uri codec 200 =
    if String.eqb (lower codec) "h264"
    then _gst_pipeline uri "h264" 200
    else _gst_pipeline uri "h265" 200.
Proof. unfold _gst_pipeline. by destruct (String.eqb (lower codec) "h264"). Qed.

Lemma gst_pipelines_differ uri :
  _gst_pipeline uri "h264" 200 <> _gst_pipeline uri "h265" 200.
Proof.
  unfold _gst_pipeline. cbn [lower]. intros H.
  apply (inj (String.append "rtspsrc location=")) in H.
  apply (inj (String.append uri)) in H.
  discriminate H.
Qed.

(** X24.  With the codec hint "auto", "h264" or "h265", when the first
    GStreamer capture does not open the second one is built for the
    other codec: the two pipelines are those of h264 and h265, one each,
    and they differ.  With "auto" the first is the one [ffprobe] points
    to, h264 when it gives nothing. *)
Theorem gstreamer_attempts_cover_both_codecs probe o2 o3 uri pref :
  pref = "auto" \/ pref = "h264" \/ pref = "h265" ->
  let r := _connect_stream probe false o2 o3 uri pref in
  let p264 := Gst (_gst_pipeline uri "h264" 200) in
  let p265 := Gst (_gst_pipeline uri "h265" 200) in
  p264 <> p265 /\
  (take 2 r.1 = [p264; p265] \/ take 2 r.1 = [p265; p264]) /\
  (pref = "auto" ->
     (take 2 r.1 = [p265; p264] <-> _detect_stream_codec probe = "h265")).
Proof.
  intros Hpref. cbv zeta.
  assert (Hne : Gst (_gst_pipeline uri "h264" 200) <> Gst (_gst_pipeline uri "h265" 200)).
  { intros H. apply (gst_pipelines_differ uri). congruence. }
  split; [exact Hne|].
  unfold _connect_stream.
  destruct Hpref as [->|[->| ->]]; cbn [String.eqb Ascii.eqb Bool.eqb].
  - destruct (detect_two_codecs probe) as [-> | ->];
      cbn [String.eqb Ascii.eqb Bool.eqb]; destruct o2; cbn [fst take];
      (split; [auto|]); intros _; (split; [|done || discriminate]).
    + intros H. exfalso. apply Hne. congruence.
    + intros H. exfalso. apply Hne. congruence.
    + done.
    + done.
  - destruct o2; cbn [fst take]; (split; [auto|]); intros H; discriminate H.
  - destruct o2; cbn [fst take]; (split; [auto|]); intros H; discriminate H.
Qed.

(** X25.  The alternate codec is chosen by comparing the hint with
    "h265" as it is written, while the pipeline is chosen by its lower
    case.  So for a hint that is neither "auto" nor "h265" and is not
    h264 in any case of letters (as "H265" or "mjpeg"), the second
    GStreamer capture repeats the h265 pipeline of the first, and h264 is
    never tried with GStreamer. *)
Theorem fallback_repeats_h265 probe o2 o3 uri pref :
  pref <> "auto" -> pref <> "h265" -> lower pref <> "h264" ->
  let r := _connect_stream probe false o2 o3 uri pref in
  take 2 r.1 = [Gst (_gst_pipeline uri "h265" 200); Gst (_gst_pipeline uri "h265" 200)] /\
  Gst (_gst_pipeline uri "h264" 200) ∉ r.1.
Proof.
  intros Hauto H265 Hlow. cbv zeta. unfold _connect_stream.
  apply String.eqb_neq in Hauto, H265. rewrite Hauto, H265.
  rewrite (gst_pipeline_by_elements uri pref).
  apply String.eqb_neq in Hlow. rewrite Hlow.
  assert (Hne : Gst (_gst_pipeline uri "h264" 200) <> Gst (_gst_pipeline uri "h265" 200)).
  { intros H. apply (gst_pipelines_differ uri). congruence. }
  destruct o2; cbn [fst take]; (split; [done|]);
    rewrite !elem_of_cons, elem_of_nil; intros H;
    repeat destruct H as [H|H]; try done.
Qed.

End StreamMore.

(** Concrete runs for the further properties. *)

Module ExtraRuns.
Import Py Frames Num Samples.


Lemma last_entry_wins_witness :
  default ∅ (Metadata.format_tracks ext0 [(KInt 3, track3); (KStr "3", VDict bare_details)] ∅)
    !! "3" = Metadata.format_track ext0 (VDict bare_details).
Proof.
  apply (MetadataMore.last_entry_wins ext0 [(KInt 3, track3)] (KStr "3")
           (VDict bare_details) []
           (default ∅ (Metadata.format_tracks ext0
                         [(KInt 3, track3); (KStr "3", VDict bare_details)] ∅))).
  - vm_compute. reflexivity.
  - constructor.
Defined.


Lemma reader_then_read_witness :
  (Camera.reader_iter cv0 frame_env open_cam 7).2 = 0 /\
  Camera.last_frame_time (Camera.reader_iter cv0 frame_env open_cam 7).1.2 = 2%Q.
Proof.
  destruct (CameraMore.reader_then_read cv0 frame_env open_cam 7 px eq_refl eq_refl)
    as (H1 & H2 & _).
  split; [exact H1|exact H2].
Defined.


Lemma reconnect_backoff_constant_witness :
  omap CameraExt.sleep_of
    (Camera.reader_loop cv0 [fail_env; mute_env] (Camera.init false None None) 0).1.1
    = [5%Q; 5%Q] /\
  Camera.reads
    (Camera.reader_loop cv0 [fail_env; mute_env] (Camera.init false None None) 0).1.1
    = [false].
Proof.
  destruct (CameraMore.reconnect_backoff_constant cv0 [fail_env; mute_env]
              (Camera.init false None None) 0 eq_refl)
    as (_ & _ & H & _ & Hr).
  - repeat constructor.
  - split; [exact H|exact Hr].
Defined.

Lemma run_stable_after_exit_witness :
  Engine.run [raising] ([Engine.capture_tick px 0] ++ [Engine.capture_tick px 1]) st0 =
    Engine.run [raising] [Engine.capture_tick px 0] st0.
Proof.
  apply (EngineMore.run_stable_after_exit [raising] [Engine.capture_tick px 0] st0).
  reflexivity.
Defined.

Lemma build_pipeline_fails_fast_witness :
  EngineExt.build_pipeline resolve0 (VStr "cam-1")
    ([step_ok] ++ step_missing :: [step_ok]) [] = EngineExt.SysExit 1 [2%nat].
Proof.
  apply (EngineMore.build_pipeline_fails_fast resolve0 (VStr "cam-1")
           [step_ok] step_missing [step_ok] [] [2%nat]).
  - vm_compute. reflexivity.
  - reflexivity.
  - reflexivity.
Defined.

(** An entry with ["config": null] stops the build like a module that
    cannot be imported. *)
Example null_config_exits :
  EngineExt.build_pipeline resolve0 (VStr "cam-1") [step_ok; step_null; step_ok] []
    = EngineExt.SysExit 1 [2%nat].
Proof. by vm_compute. Qed.

(** With the camera of the repository [cleanup] closes no module. *)
Example cleanup_closes_nothing :
  EngineExt.cleanup (Some EngineExt.IP_Camera_attrs) [true; false; true] =
    ([EngineExt.CLog "Cleaning up..."], Some EngineExt.no_disconnect_msg) /\
  EngineExt.cleanup (Some ("disconnect" :: EngineExt.IP_Camera_attrs)) [true; false; true] =
    ([EngineExt.CLog "Cleaning up..."; EngineExt.CDisconnect;
      EngineExt.CClose 0; EngineExt.CClose 2], None).
Proof. split; by vm_compute. Qed.

Lemma white_frame_is_unhealthy_witness :
  (Health.validate th0 cv0 (Some (Gray [[255; 230]]))).1 = false.
Proof.
  destruct (HealthMore.white_frame_is_unhealthy th0 cv0 (Gray [[255; 230]]))
    as (_ & H & _).
  - cbn. lia.
  - repeat constructor.
  - reflexivity.
  - exact H.
Defined.

Lemma dark_frame_is_unhealthy_witness :
  (Health.validate th0 cv0 (Some (Gray [[0; 3]]))).1 = false.
Proof.
  destruct (HealthMore.dark_frame_is_unhealthy th0 cv0 (Gray [[0; 3]]) 3)
    as (_ & H & _).
  - cbn. lia.
  - repeat constructor; cbn; lia.
  - reflexivity.
  - exact H.
Defined.

Lemma white_share_in_unit_interval_witness :
  (0 <= Health.white_ratio (Health.to_gray cv0 px))%Q /\
  (Health.white_ratio (Health.to_gray cv0 px) <= 1)%Q.
Proof.
  destruct (HealthMore.white_share_in_unit_interval th0 cv0 px) as (_ & H0 & H1 & _).
  - cbn. lia.
  - split; [exact H0|exact H1].
Defined.

Lemma gstreamer_attempts_cover_both_codecs_witness :
  take 2 (StreamExt._connect_stream (Some (0, " HEVC ")) false false true
            "rtsp://cam/1" "auto").1 =
    [StreamExt.Gst (StreamExt._gst_pipeline "rtsp://cam/1" "h265" 200);
     StreamExt.Gst (StreamExt._gst_pipeline "rtsp://cam/1" "h264" 200)].
Proof.
  destruct (StreamMore.gstreamer_attempts_cover_both_codecs
              (Some (0, " HEVC ")) false true "rtsp://cam/1" "auto" (or_introl eq_refl)) as (_ & _ & H).
  apply (H eq_refl). reflexivity.
Defined.

Lemma fallback_repeats_h265_witness :
  take 2 (StreamExt._connect_stream None false false true "rtsp://cam/1" "H265").1 =
    [StreamExt.Gst (StreamExt._gst_pipeline "rtsp://cam/1" "h265" 200);
     StreamExt.Gst (StreamExt._gst_pipeline "rtsp://cam/1" "h265" 200)].
Proof.
  apply (StreamMore.fallback_repeats_h265 None false true "rtsp://cam/1" "H265");
    discriminate.
Defined.

End ExtraRuns.
